(** * Inventory ledger: operations, authorization and undo history

    A shallow embedding of [main.py]: the classes [User], [InventoryItem],
    the four [InventoryOperation] subclasses and [InventoryManager].  The
    base class itself, whose two methods only raise [NotImplementedError],
    has no instance here: an operation is one of the four.

    Python objects are mutable and shared by reference: the manager's
    history holds references to the operation instance and to the item,
    and [TransferItem] / [AdjustPrice] instances keep the value they
    replaced in a field of their own.  The embedding therefore keeps a
    store of item objects and a store of operation objects, addressed by
    [addr], and the history records addresses.

    [decimal.Decimal] is the Python library type of prices and amounts.
    It is modelled for finite numbers as the triple (sign, coefficient,
    exponent), with the library's default context: 28 significant digits,
    rounding half to even, exponents between [Etiny] and [Emax], the
    overflow trap set.  NaN and the infinities are outside the model. *)

From Stdlib Require Import ZArith NArith QArith Qpower Qround Qabs Lia Lqa.
From stdpp Require Import gmap strings list.

Local Open Scope Z_scope.

(** ** decimal.Decimal (finite values, default context) *)

(** A finite [Decimal]: [(-1)^dsign * dint * 10^dexp]. *)
Record Decimal := mkDecimal { dsign : bool; dint : N; dexp : Z }.

(** [getcontext().prec] of the default context. *)
Definition prec : Z := 28.

(** The coefficient with its sign. *)
Definition dec_signed (d : Decimal) : Z :=
  if dsign d then - Z.of_N (dint d) else Z.of_N (dint d).

(** The rational number a [Decimal] denotes. *)
Definition dec_value (d : Decimal) : Q :=
  (inject_Z (dec_signed d) * Qpower (inject_Z 10) (dexp d))%Q.

(** [int(d)]: for a non-negative exponent the integer itself, otherwise the
    coefficient with its last [-dexp] digits dropped; the sign is put back
    afterwards. *)
Definition dec_to_int (d : Decimal) : Z :=
  let s := if dsign d then -1 else 1 in
  if 0 <=? dexp d
  then s * Z.of_N (dint d) * 10 ^ dexp d
  else s * (Z.of_N (dint d) / 10 ^ (- dexp d)).

(** [Decimal(z)] for a Python int. *)
Definition dec_of_int (z : Z) : Decimal :=
  {| dsign := z <? 0; dint := Z.to_N (Z.abs z); dexp := 0 |}.

(** [len(str(n))]: the number of decimal digits of a coefficient. *)
Fixpoint ndigits_fuel (fuel : nat) (n : N) : Z :=
  match fuel with
  | O => 1
  | S f => if (n <? 10)%N then 1 else 1 + ndigits_fuel f (n / 10)%N
  end.

Definition ndigits (n : N) : Z := ndigits_fuel (N.to_nat (N.log2 n)) n.

(** The sum before rounding: both operands are brought to the smaller
    exponent and the signed coefficients are added.  A zero sum is negative
    only when both operands are. *)
Definition dec_exact_add (a b : Decimal) : Decimal :=
  let e := Z.min (dexp a) (dexp b) in
  let t := dec_signed a * 10 ^ (dexp a - e) + dec_signed b * 10 ^ (dexp b - e) in
  {| dsign := if t <? 0 then true else if 0 <? t then false else dsign a && dsign b;
     dint := Z.to_N (Z.abs t);
     dexp := e |}.

(** The exponent limits of the default context: [Emax], [Emin], and
    [Etiny() = Emin - prec + 1], the smallest exponent of a result. *)
Definition Emax : Z := 999999.
Definition Emin : Z := -999999.
Definition Etiny : Z := Emin - prec + 1.

(** [d.adjusted()]: the exponent of the leading digit. *)
Definition dec_adjusted (d : Decimal) : Z := ndigits (dint d) + dexp d - 1.

(** The rounding of a result to the context (half to even).  A zero keeps
    its sign and has its exponent brought between [Etiny] and [Emax].
    Otherwise the result may not have an exponent below
    [max (len + exp - prec) Etiny]: a coefficient of at most [prec] digits
    whose exponent is at least [Etiny] is kept as it is; any other loses
    its last digits, and a carry that makes it [prec + 1] digits long drops
    one more. *)
Definition dec_round (d : Decimal) : Decimal :=
  let c := Z.of_N (dint d) in
  if c =? 0 then
    {| dsign := dsign d; dint := 0; dexp := Z.min (Z.max (dexp d) Etiny) Emax |}
  else
    let exp_min := Z.max (ndigits (dint d) + dexp d - prec) Etiny in
    if dexp d <? exp_min then
      let k := exp_min - dexp d in
      let q := c / 10 ^ k in
      let r := c mod 10 ^ k in
      let half := 5 * 10 ^ (k - 1) in
      let q' := if (half <? r) || ((r =? half) && Z.odd q) then q + 1 else q in
      if q' =? 10 ^ prec
      then {| dsign := dsign d; dint := Z.to_N (q' / 10); dexp := exp_min + 1 |}
      else {| dsign := dsign d; dint := Z.to_N q'; dexp := exp_min |}
    else d.

(** [d._fix(context)]: the rounded result, or [None] where the library
    raises [decimal.Overflow].  The library tests the exponent before the
    rounding and again after a carry; either test fires exactly when the
    leading digit of the rounded result lies above [Emax]. *)
Definition dec_fix (d : Decimal) : option Decimal :=
  let r := dec_round d in
  if negb (Z.of_N (dint d) =? 0) && (Emax <? dec_adjusted r) then None else Some r.

(** [a + b] on Decimals: [None] where [decimal.Overflow] is raised. *)
Definition Decimal_add (a b : Decimal) : option Decimal :=
  dec_fix (dec_exact_add a b).

(** The Decimal that [a + b] returns.  Where the library raises
    [decimal.Overflow] instead, [Decimal_add] is [None] and the statement
    that adds does not complete; the value here is then the rounded sum,
    without the upper limit. *)
Definition dec_add (a b : Decimal) : Decimal := dec_round (dec_exact_add a b).

(** The coefficient has at most [prec] digits: it is below [10^prec]. *)
Definition fits_context (d : Decimal) : Prop := Z.of_N (dint d) < 10 ^ prec.

(** The context keeps [d] as it is: no digit is lost and the exponent is
    not below [Etiny]. *)
Definition exact_in_context (d : Decimal) : Prop :=
  fits_context d /\ Etiny <= dexp d.

(** [r] is [s] rounded half to even at the exponent the context allows:
    [r] has the sign of [s]; a zero stays a zero, with its exponent brought
    into range; a non-zero [s] is kept when its exponent is not below
    [E = max (len + exp - prec) Etiny], and is otherwise replaced by the
    multiple [q * 10^E] nearest to it, the even [q] on a tie, written with
    the exponent [E] unless [q] has grown to [10^prec]. *)
Definition rounded_half_even (s r : Decimal) : Prop :=
  let c := Z.of_N (dint s) in
  let E := Z.max (ndigits (dint s) + dexp s - prec) Etiny in
  let k := E - dexp s in
  dsign r = dsign s /\
  ((c = 0 /\ dint r = 0%N /\ dexp r = Z.min (Z.max (dexp s) Etiny) Emax) \/
   (c <> 0 /\ k <= 0 /\ dint r = dint s /\ dexp r = dexp s) \/
   (c <> 0 /\ 0 < k /\
    exists q : Z,
      0 <= q /\
      2 * Z.abs (q * 10 ^ k - c) <= 10 ^ k /\
      (2 * Z.abs (q * 10 ^ k - c) = 10 ^ k -> Z.even q = true) /\
      ((q <> 10 ^ prec /\ Z.of_N (dint r) = q /\ dexp r = E) \/
       (q = 10 ^ prec /\ Z.of_N (dint r) = 10 ^ (prec - 1) /\ dexp r = E + 1)))).

(** Truncation of a rational toward zero, as the specification words it. *)
Definition truncate (q : Q) : Z :=
  if Qle_bool 0 q then Qfloor q else Qceiling q.

(** ** User and InventoryItem *)

Record User := mkUser { username : string; role : string }.

(** [User(username, role="staff")]. *)
Definition User_init (username : string) (role : option string) : User :=
  {| username := username; role := default "staff"%string role |}.

(** The quantity is a Python int: the script builds the item with the int
    [10], and [execute] / [undo] only ever add or subtract [int(amount)]
    (the annotation of the constructor reads [Decimal]).  The price is a
    [Decimal]. *)
Record InventoryItem := mkItem {
  name : string;
  amount : Z;
  price : Decimal;
  location : string
}.

(** [InventoryItem(name, amount, price)]: the location is not a parameter. *)
Definition InventoryItem_init (name : string) (amount : Z) (price : Decimal)
  : InventoryItem :=
  {| name := name; amount := amount; price := price;
     location := "Main Storage"%string |}.

Definition set_amount (q : Z) (it : InventoryItem) : InventoryItem :=
  {| name := name it; amount := q; price := price it; location := location it |}.

Definition set_price (p : Decimal) (it : InventoryItem) : InventoryItem :=
  {| name := name it; amount := amount it; price := p; location := location it |}.

Definition set_location (l : string) (it : InventoryItem) : InventoryItem :=
  {| name := name it; amount := amount it; price := price it; location := l |}.

(** ** Operations *)

(** An operation instance with its fields.  [old_location] and [old_price]
    are [None] until [execute] has run, as in the constructors. *)
Inductive InventoryOperation :=
  | AddItem
  | RemoveItem
  | TransferItem (new_location : string) (old_location : option string)
  | AdjustPrice (old_price : option Decimal).

Definition TransferItem_init (new_location : string) : InventoryOperation :=
  TransferItem new_location None.

Definition AdjustPrice_init : InventoryOperation := AdjustPrice None.

(** [operation.execute(item, amount)]: returns the operation instance and
    the item as the call leaves them.  ([item.price += amount] stores
    [dec_add]; see there for a sum above the context's upper limit.) *)
Definition execute (op : InventoryOperation) (item : InventoryItem) (a : Decimal)
  : InventoryOperation * InventoryItem :=
  match op with
  | AddItem => (AddItem, set_amount (amount item + dec_to_int a) item)
  | RemoveItem => (RemoveItem, set_amount (amount item - dec_to_int a) item)
  | TransferItem new_location _ =>
      (TransferItem new_location (Some (location item)),
       set_location new_location item)
  | AdjustPrice _ =>
      (AdjustPrice (Some (price item)), set_price (dec_add (price item) a) item)
  end.

(** [operation.undo(item, amount)].  The instance is only read.  On an
    instance whose [execute] never ran the source stores Python's [None]
    in the item's [location] / [price]; that leaves the item type, and is
    [None] here. *)
Definition undo (op : InventoryOperation) (item : InventoryItem) (a : Decimal)
  : option InventoryItem :=
  match op with
  | AddItem => Some (set_amount (amount item - dec_to_int a) item)
  | RemoveItem => Some (set_amount (amount item + dec_to_int a) item)
  | TransferItem _ old_location => (λ l, set_location l item) <$> old_location
  | AdjustPrice old_price => (λ p, set_price p item) <$> old_price
  end.

(** [isinstance(operation, AdjustPrice)]. *)
Definition is_AdjustPrice (op : InventoryOperation) : bool :=
  match op with AdjustPrice _ => true | _ => false end.

(** ** The object store and the manager *)

Definition addr := nat.

(** A history entry [(operation, item, amount)]: two references and a value. *)
Definition HistoryEntry : Type := addr * addr * Decimal.

Record InventoryManager := mkManager { history : list HistoryEntry }.

(** [InventoryManager()]. *)
Definition InventoryManager_init : InventoryManager := {| history := [] |}.

(** The objects a run of the program touches: the items, the operation
    instances, the manager, and the lines printed so far. *)
Record World := mkWorld {
  items : gmap addr InventoryItem;
  ops : gmap addr InventoryOperation;
  manager : InventoryManager;
  stdout : list string
}.

Definition denial_message : string := "Error! Only admins can adjust prices".

(** The test of [perform_operation]:
    [isinstance(operation, AdjustPrice) and user.role != "admin"]. *)
Definition denied (user : User) (op : InventoryOperation) : bool :=
  is_AdjustPrice op && negb (String.eqb (role user) "admin").

(** [manager.perform_operation(user, operation, item, amount)], where
    [operation] and [item] are references.  [None] only for a reference to
    no object, which Python cannot produce. *)
Definition perform_operation (user : User) (operation item : addr) (a : Decimal)
  (w : World) : option World :=
  op ← ops w !! operation;
  it ← items w !! item;
  if denied user op
  then Some {| items := items w; ops := ops w; manager := manager w;
               stdout := stdout w ++ [denial_message] |}
  else
    let '(op', it') := execute op it a in
    Some {| items := <[item := it']> (items w);
            ops := <[operation := op']> (ops w);
            manager := {| history := history (manager w) ++ [(operation, item, a)] |};
            stdout := stdout w |}.

(** [list.pop()]: the list without its last element, and that element. *)
Fixpoint list_pop {A} (l : list A) : option (list A * A) :=
  match l with
  | [] => None
  | x :: l' =>
      match list_pop l' with
      | None => Some ([], x)
      | Some (r, y) => Some (x :: r, y)
      end
  end.

(** [manager.undo_last_operation()]. *)
Definition undo_last_operation (w : World) : option World :=
  match list_pop (history (manager w)) with
  | None => Some w
  | Some (rest, (operation, item, a)) =>
      op ← ops w !! operation;
      it ← items w !! item;
      it' ← undo op it a;
      Some {| items := <[item := it']> (items w);
              ops := ops w;
              manager := {| history := rest |};
              stdout := stdout w |}
  end.

(** ** Runs *)

Inductive Call :=
  | Perform (user : User) (operation item : addr) (a : Decimal)
  | UndoLast.

Definition call (c : Call) (w : World) : option World :=
  match c with
  | Perform u o i a => perform_operation u o i a w
  | UndoLast => undo_last_operation w
  end.

Fixpoint run (cs : list Call) (w : World) : option World :=
  match cs with
  | [] => Some w
  | c :: cs' => w' ← call c w; run cs' w'
  end.

(** ** Vocabulary of the statements *)

(** A Decimal literal: [dec_lit 159999 (-2)] is [Decimal("1599.99")]. *)
Definition dec_lit (c e : Z) : Decimal :=
  {| dsign := c <? 0; dint := Z.to_N (Z.abs c); dexp := e |}.

(** A call was rejected: no object and no history entry changed, and the
    denial line was printed. *)
Definition rejected (w w' : World) : Prop :=
  items w' = items w /\ ops w' = ops w /\ manager w' = manager w /\
  stdout w' = stdout w ++ [denial_message].

(** The calls return [None] on every path, so a line on standard output
    is the only report of an outcome. *)
Definition reported (w w' : World) : Prop := stdout w' <> stdout w.

(** A call went through: [execute] ran on the two objects, one entry was
    appended to the history, nothing was printed. *)
Definition performed (operation item : addr) (a : Decimal) (w w' : World) : Prop :=
  exists op it,
    ops w !! operation = Some op /\ items w !! item = Some it /\
    items w' = <[item := (execute op it a).2]> (items w) /\
    ops w' = <[operation := (execute op it a).1]> (ops w) /\
    history (manager w') = history (manager w) ++ [(operation, item, a)] /\
    stdout w' = stdout w.

(** The item field a [TransferItem] or [AdjustPrice] instance replaces, and
    the value such an instance has saved. *)
Definition op_field (op : InventoryOperation) (it : InventoryItem)
  : option (string + Decimal) :=
  match op with
  | TransferItem _ _ => Some (inl (location it))
  | AdjustPrice _ => Some (inr (price it))
  | _ => None
  end.

Definition saved (op : InventoryOperation) : option (string + Decimal) :=
  match op with
  | TransferItem _ old_location => inl <$> old_location
  | AdjustPrice old_price => inr <$> old_price
  | _ => None
  end.

Definition keeps_state (op : InventoryOperation) : bool :=
  match op with TransferItem _ _ | AdjustPrice _ => true | _ => false end.

(** The call is a [perform_operation] through the instance at [o]. *)
Definition executes (o : addr) (c : Call) : bool :=
  match c with
  | Perform _ o' _ _ => bool_decide (o' = o)
  | UndoLast => false
  end.










(** ** The objects of the demonstration script *)

Definition admin_user : User := User_init "admin_user" (Some "admin"%string).
Definition staff_user : User := User_init "staff_user" (Some "staff"%string).

Definition demo_item : InventoryItem :=
  InventoryItem_init "Iphone" 10 (dec_lit 159999 (-2)).

(** The item at address 0; [add_op], [remove_op], [transfer_op] and the two
    [AdjustPrice()] instances at addresses 0 to 4. *)
Definition demo_world : World :=
  {| items := {[ 0%nat := demo_item ]};
     ops := {[ 0%nat := AddItem; 1%nat := RemoveItem;
               2%nat := TransferItem_init "Another Storage";
               3%nat := AdjustPrice_init; 4%nat := AdjustPrice_init ]};
     manager := InventoryManager_init;
     stdout := [] |}.

(** The item of the specification's truncation scenario. *)
Definition widget : InventoryItem :=
  InventoryItem_init "Widget" 10 (dec_lit 10000 (-2)).

(** An item priced [Decimal("1E+28")] and a fresh [AdjustPrice()]. *)
Definition ingot : InventoryItem := InventoryItem_init "Ingot" 1 (dec_lit 1 28).

(** An item whose price has 28 digits before the point. *)
Definition bullion : InventoryItem :=
  InventoryItem_init "Bullion" 1 (dec_lit 1234567890123456789012345678 0).

Definition ingot_world : World :=
  {| items := {[ 0%nat := ingot ]};
     ops := {[ 0%nat := AdjustPrice_init ]};
     manager := InventoryManager_init;
     stdout := [] |}.


(** The calls of the script up to its first undo. *)
Definition demo_calls : list Call :=
  [ Perform staff_user 0%nat 0%nat (dec_of_int 5);
    Perform staff_user 1%nat 0%nat (dec_of_int 3);
    Perform staff_user 2%nat 0%nat (dec_of_int 0);
    Perform admin_user 3%nat 0%nat (dec_lit 5000 (-2));
    Perform staff_user 4%nat 0%nat (dec_lit 5000 (-2)) ].

(** ** Vocabulary of the further properties *)

Definition is_perform (c : Call) : bool :=
  match c with Perform _ _ _ _ => true | UndoLast => false end.

(** The operation instance as its constructor leaves it: the class and,
    for a transfer, the target. *)
Definition reset (op : InventoryOperation) : InventoryOperation :=
  match op with
  | TransferItem new_location _ => TransferItem_init new_location
  | AdjustPrice _ => AdjustPrice_init
  | _ => op
  end.

(** [perform_operation(user, operation, ...)] runs [execute] on an
    instance that saves a value: the call is not denied and the instance at
    [o] is a [TransferItem] or an [AdjustPrice]. *)
Definition executes_stateful (w : World) (u : User) (o : addr) : bool :=
  match ops w !! o with
  | Some op => keeps_state op && negb (denied u op)
  | None => false
  end.

(** The instances of that kind that the calls of [cs] execute, in order, one
    occurrence per call. *)
Fixpoint stateful_uses (w : World) (cs : list Call) : list addr :=
  match cs with
  | [] => []
  | Perform u o _ _ :: cs' =>
      if executes_stateful w u o then o :: stateful_uses w cs'
      else stateful_uses w cs'
  | UndoLast :: cs' => stateful_uses w cs'
  end.

(** A [perform_operation] call on objects of [w] that is denied. *)
Definition denied_call (w : World) (c : Call) : Prop :=
  match c with
  | Perform u o i _ =>
      (exists op, ops w !! o = Some op /\ denied u op = true) /\ is_Some (items w !! i)
  | UndoLast => False
  end.

(** What a call adds to the quantity of the item at [i]: the truncated
    amount of an [AddItem] on that item, its opposite for a [RemoveItem],
    nothing otherwise. *)
Definition quantity_delta (w : World) (i : addr) (c : Call) : Z :=
  match c with
  | Perform _ o j a =>
      if bool_decide (j = i) then
        match ops w !! o with
        | Some AddItem => dec_to_int a
        | Some RemoveItem => - dec_to_int a
        | _ => 0
        end
      else 0
  | UndoLast => 0
  end.

Definition total_delta (w : World) (i : addr) (cs : list Call) : Z :=
  foldr (fun c s => quantity_delta w i c + s) 0 cs.

(** Two items and two instances, for calls on separate objects. *)
Definition two_items_world : World :=
  {| items := {[ 0%nat := demo_item; 1%nat := widget ]};
     ops := {[ 0%nat := AddItem; 1%nat := TransferItem_init "Another Storage" ]};
     manager := InventoryManager_init;
     stdout := [] |}.

(** The Decimal of opposite sign ([Decimal.copy_negate]): the same digits
    and exponent. *)
Definition dec_negate (a : Decimal) : Decimal :=
  {| dsign := negb (dsign a); dint := dint a; dexp := dexp a |}.

(** * Properties *)

(** Closed goals about the script's objects are settled by evaluation. *)
Ltac by_evaluation := vm_compute; reflexivity.

(** ** Decimal arithmetic *)

Section DecimalFacts.

Lemma log2_div10 (n : N) (f : nat) :
  (10 <= n)%N -> (N.to_nat (N.log2 n) <= S f)%nat ->
  (N.to_nat (N.log2 (n / 10)) <= f)%nat.
Proof.
  intros Hn Hf.
  assert (Hm : (0 < n / 10)%N).
  { apply N.div_str_pos. lia. }
  assert (Hlt : (N.log2 (n / 10) < N.log2 n)%N).
  { apply N.log2_lt_pow2; [lia|].
    destruct (N.log2_spec n) as [_ Hhi]; [lia|].
    assert (n / 10 * 10 <= n)%N by (rewrite N.mul_comm; apply N.Div0.mul_div_le).
    rewrite N.pow_succ_r' in Hhi. lia. }
  lia.
Qed.

Lemma ndigits_fuel_spec (fuel : nat) : forall n : N,
  (0 < n)%N -> (N.to_nat (N.log2 n) <= fuel)%nat ->
  1 <= ndigits_fuel fuel n /\
  10 ^ (ndigits_fuel fuel n - 1) <= Z.of_N n < 10 ^ ndigits_fuel fuel n.
Proof.
  induction fuel as [|f IH]; intros n Hpos Hlog.
  - assert (n < 2)%N.
    { change 2%N with (2 ^ 1)%N. apply N.log2_lt_pow2; lia. }
    simpl. lia.
  - simpl. destruct (N.ltb_spec n 10) as [Hlt|Hge].
    + simpl. lia.
    + destruct (IH (n / 10)%N) as (Hd & Hlo & Hhi).
      * apply N.div_str_pos. lia.
      * by apply log2_div10.
      * set (d := ndigits_fuel f (n / 10)) in *.
        assert (Hdiv : (n = 10 * (n / 10) + n mod 10)%N) by (apply N.div_mod; lia).
        assert (Hmod : (n mod 10 < 10)%N) by (apply N.mod_lt; lia).
        replace (1 + d - 1) with (Z.succ (d - 1)) by lia.
        replace (1 + d) with (Z.succ d) by lia.
        rewrite !Z.pow_succ_r by lia.
        assert (HdivZ : Z.of_N n = 10 * Z.of_N (n / 10) + Z.of_N (n mod 10)).
        { rewrite Hdiv at 1. by rewrite N2Z.inj_add, N2Z.inj_mul. }
        pose proof (N2Z.is_nonneg (n mod 10)) as Hr0.
        assert (Hr : Z.of_N (n mod 10) < 10) by (change 10 with (Z.of_N 10); by apply N2Z.inj_lt).
        clear Hdiv Hmod. clearbody d.
        generalize dependent (Z.of_N (n mod 10)). generalize dependent (Z.of_N (n / 10)).
        generalize dependent (Z.of_N n).
        generalize dependent (10 ^ (d - 1)). generalize dependent (10 ^ d).
        intros. lia.
Qed.

Lemma ndigits_spec (n : N) :
  (0 < n)%N -> 10 ^ (ndigits n - 1) <= Z.of_N n < 10 ^ ndigits n.
Proof. intros H. by apply ndigits_fuel_spec. Qed.

Lemma ndigits_pos (n : N) : 1 <= ndigits n.
Proof.
  destruct (N.eq_dec n 0%N) as [->|Hn]; [done|].
  apply ndigits_fuel_spec; lia.
Qed.

(** A coefficient below [10^k] has at most [k] digits. *)
Lemma ndigits_le (n : N) (k : Z) :
  1 <= k -> Z.of_N n < 10 ^ k -> ndigits n <= k.
Proof.
  intros Hk Hlt.
  destruct (N.eq_dec n 0%N) as [->|Hn]; [change (ndigits 0) with 1; lia|].
  destruct (ndigits_spec n) as [Hlo _]; [lia|].
  destruct (Z.le_gt_cases (ndigits n) k) as [|Hgt]; [done|exfalso].
  assert (10 ^ k <= 10 ^ (ndigits n - 1)) by (apply Z.pow_le_mono_r; lia).
  lia.
Qed.

Lemma fits_context_ndigits (d : Decimal) :
  fits_context d <-> ndigits (dint d) <= prec.
Proof.
  unfold fits_context. split.
  - intros H. by apply ndigits_le.
  - intros H. destruct (N.eq_dec (dint d) 0%N) as [->|Hn]; [done|].
    destruct (ndigits_spec (dint d)) as [_ Hhi]; [lia|].
    eapply Z.lt_le_trans; [exact Hhi|].
    apply Z.pow_le_mono_r; [lia|done].
Qed.

(** A non-zero result that the context can hold is not rounded. *)
Lemma dec_round_id (d : Decimal) :
  exact_in_context d -> dint d <> 0%N -> dec_round d = d.
Proof.
  intros [Hfit%fits_context_ndigits He] Hnz. unfold dec_round.
  destruct (Z.eqb_spec (Z.of_N (dint d)) 0) as [|_]; [lia|].
  destruct (Z.ltb_spec (dexp d) (Z.max (ndigits (dint d) + dexp d - prec) Etiny));
    [lia|done].
Qed.

Lemma dec_value_zero (d : Decimal) : dint d = 0%N -> (dec_value d == 0)%Q.
Proof.
  intros H. unfold dec_value, dec_signed. rewrite H. simpl.
  destruct (dsign d); apply Qmult_0_l.
Qed.

(** The rounding keeps the value of a result that the context can hold. *)
Lemma dec_round_value_exact (d : Decimal) :
  exact_in_context d -> (dec_value (dec_round d) == dec_value d)%Q.
Proof.
  intros Hex. destruct (N.eq_dec (dint d) 0%N) as [Hz|Hnz].
  - rewrite (dec_value_zero d Hz). apply dec_value_zero.
    unfold dec_round. by rewrite Hz.
  - by rewrite dec_round_id.
Qed.

(** What [dec_fix] returns is the rounded result. *)
Lemma dec_fix_Some (d r : Decimal) : dec_fix d = Some r -> r = dec_round d.
Proof.
  unfold dec_fix. destruct (_ && _); [done|]. by intros [= <-].
Qed.

Lemma Decimal_eq (r1 r2 : Decimal) :
  dsign r1 = dsign r2 -> dint r1 = dint r2 -> dexp r1 = dexp r2 -> r1 = r2.
Proof. destruct r1, r2. simpl. congruence. Qed.

(** Two nearest multiples, each even on a tie, are the same multiple. *)
Lemma nearest_even_unique (c P q1 q2 : Z) :
  0 < P ->
  2 * Z.abs (q1 * P - c) <= P -> (2 * Z.abs (q1 * P - c) = P -> Z.even q1 = true) ->
  2 * Z.abs (q2 * P - c) <= P -> (2 * Z.abs (q2 * P - c) = P -> Z.even q2 = true) ->
  q1 = q2.
Proof.
  intros HP Hn1 He1 Hn2 He2.
  destruct (Z.lt_trichotomy q1 q2) as [Hlt|[Heq|Hgt]]; [|done|].
  - assert (q2 = q1 + 1) as -> by nia.
    specialize (He1 ltac:(nia)). specialize (He2 ltac:(nia)).
    rewrite Z.add_1_r, Z.even_succ, <- Z.negb_even, He1 in He2. discriminate.
  - assert (q1 = q2 + 1) as -> by nia.
    specialize (He1 ltac:(nia)). specialize (He2 ltac:(nia)).
    rewrite Z.add_1_r, Z.even_succ, <- Z.negb_even, He2 in He1. discriminate.
Qed.

(** At most one Decimal is the half-even rounding of a result. *)
Lemma rounded_half_even_unique (s r1 r2 : Decimal) :
  rounded_half_even s r1 -> rounded_half_even s r2 -> r1 = r2.
Proof.
  unfold rounded_half_even.
  set (c := Z.of_N (dint s)). set (E := Z.max (ndigits (dint s) + dexp s - prec) Etiny).
  set (k := E - dexp s).
  intros [Hs1 H1] [Hs2 H2].
  assert (Hint : dint r1 = dint r2 /\ dexp r1 = dexp r2).
  { destruct H1 as [(Hc1 & Hi1 & He1)|[(Hc1 & Hk1 & Hi1 & He1)|(Hc1 & Hk1 & q1 & _ & Hn1 & Ht1 & Hr1)]];
    destruct H2 as [(Hc2 & Hi2 & He2)|[(Hc2 & Hk2 & Hi2 & He2)|(Hc2 & Hk2 & q2 & _ & Hn2 & Ht2 & Hr2)]];
      try lia; try (split; congruence).
    assert (HP : 0 < 10 ^ k) by (apply Z.pow_pos_nonneg; lia).
    pose proof (nearest_even_unique c (10 ^ k) q1 q2 HP Hn1 Ht1 Hn2 Ht2) as ->.
    destruct Hr1 as [(Hq1 & Hi1 & He1)|(Hq1 & Hi1 & He1)];
      destruct Hr2 as [(Hq2 & Hi2 & He2)|(Hq2 & Hi2 & He2)]; try done; split; lia. }
  destruct Hint. apply Decimal_eq; congruence.
Qed.

(** [dec_round] rounds half to even. *)
Lemma dec_round_half_even (d : Decimal) : rounded_half_even d (dec_round d).
Proof.
  unfold rounded_half_even, dec_round.
  set (c := Z.of_N (dint d)). set (E := Z.max (ndigits (dint d) + dexp d - prec) Etiny).
  assert (Hc : 0 <= c) by (unfold c; lia).
  destruct (Z.eqb_spec c 0) as [Hz|Hnz].
  { split; [done|]. left. done. }
  destruct (Z.ltb_spec (dexp d) E) as [Hlt|Hge].
  2: { split; [done|]. right. left. split; [done|]. split; [lia|done]. }
  set (k := E - dexp d). assert (Hk : 0 < k) by (unfold k; lia).
  set (P := 10 ^ k). set (H' := 10 ^ (k - 1)).
  assert (HP : P = 10 * H').
  { unfold P, H'. replace k with (Z.succ (k - 1)) at 1 by lia.
    rewrite Z.pow_succ_r by lia. done. }
  assert (HH : 0 < H') by (apply Z.pow_pos_nonneg; lia).
  pose proof (Z.div_mod c P ltac:(lia)) as Hdm.
  pose proof (Z.mod_pos_bound c P ltac:(lia)) as Hmod.
  assert (Hq0 : 0 <= c / P) by (apply Z.div_pos; lia).
  set (q := c / P) in *. set (r := c mod P) in *.
  set (q' := if (5 * H' <? r) || ((r =? 5 * H') && Z.odd q) then q + 1 else q).
  assert (Hq' : 0 <= q' /\ 2 * Z.abs (q' * P - c) <= P /\
                (2 * Z.abs (q' * P - c) = P -> Z.even q' = true)).
  { unfold q'. destruct (Z.ltb_spec (5 * H') r) as [Hup|Hdown]; simpl.
    - split; [lia|]. split; [nia|]. intros Heq. exfalso. nia.
    - destruct (Z.eqb_spec r (5 * H')) as [Htie|Hne]; simpl.
      + destruct (Z.odd q) eqn:Hodd.
        * split; [lia|]. split; [nia|]. intros _.
          rewrite Z.add_1_r, Z.even_succ. exact Hodd.
        * split; [lia|]. split; [nia|]. intros _.
          by rewrite <- Z.negb_odd, Hodd.
      + split; [lia|]. split; [nia|]. intros Heq. exfalso. nia. }
  destruct Hq' as (Hq'0 & Hnear & Htie).
  destruct (Z.eqb_spec q' (10 ^ prec)) as [Hcarry|Hnc]; cbn [dsign dint dexp].
  - split; [done|]. right. right. split; [done|]. split; [done|].
    exists q'. do 3 (split; [done|]). right.
    split; [done|]. split; [|done]. rewrite Hcarry. by vm_compute.
  - split; [done|]. right. right. split; [done|]. split; [done|].
    exists q'. do 3 (split; [done|]). left.
    split; [done|]. split; [|done]. by rewrite Z2N.id.
Qed.

Lemma dec_signed_exact_add (a b : Decimal) :
  dec_signed (dec_exact_add a b) =
  dec_signed a * 10 ^ (dexp a - Z.min (dexp a) (dexp b))
  + dec_signed b * 10 ^ (dexp b - Z.min (dexp a) (dexp b)).
Proof.
  unfold dec_exact_add, dec_signed at 1. cbn [dsign dint].
  set (t := _ + _).
  destruct (Z.ltb_spec t 0); [lia|].
  destruct (Z.ltb_spec 0 t); [lia|].
  replace t with 0 by lia. by destruct (dsign a && dsign b).
Qed.

Lemma Qpower10_nonzero : ~ (inject_Z 10 == 0)%Q.
Proof. by intros H. Qed.

(** The unrounded sum denotes the sum of the two numbers. *)
Lemma dec_value_exact_add (a b : Decimal) :
  (dec_value (dec_exact_add a b) == dec_value a + dec_value b)%Q.
Proof.
  unfold dec_value. rewrite dec_signed_exact_add.
  cbn [dec_exact_add dexp].
  set (e := Z.min (dexp a) (dexp b)).
  rewrite inject_Z_plus, !inject_Z_mult.
  rewrite !Zpower_Qpower by lia.
  rewrite Qmult_plus_distr_l.
  rewrite <- !Qmult_assoc, <- !Qpower_plus by apply Qpower10_nonzero.
  by replace (dexp a - e + e) with (dexp a) by lia;
     replace (dexp b - e + e) with (dexp b) by lia.
Qed.

(** When the context can hold the unrounded sum, [dec_add] is exact. *)
Lemma dec_value_add_exact (a b : Decimal) :
  exact_in_context (dec_exact_add a b) ->
  (dec_value (dec_add a b) == dec_value a + dec_value b)%Q.
Proof.
  intros H. unfold dec_add. rewrite dec_round_value_exact by done.
  apply dec_value_exact_add.
Qed.

(** When [a + b] returns, it returns [dec_add a b]. *)
Lemma Decimal_add_Some (a b r : Decimal) :
  Decimal_add a b = Some r -> r = dec_add a b.
Proof. apply dec_fix_Some. Qed.

Lemma truncate_comp (p q : Q) : (p == q)%Q -> truncate p = truncate q.
Proof.
  intros H. unfold truncate.
  rewrite (Qfloor_comp _ _ H), (Qceiling_comp _ _ H).
  destruct (Qle_bool 0 p) eqn:Hp, (Qle_bool 0 q) eqn:Hq; try done.
  - apply Qle_bool_iff in Hp. rewrite H in Hp. apply Qle_bool_iff in Hp. congruence.
  - apply Qle_bool_iff in Hq. rewrite <- H in Hq. apply Qle_bool_iff in Hq. congruence.
Qed.

Lemma truncate_Z (z : Z) : truncate (inject_Z z) = z.
Proof.
  unfold truncate. destruct (Qle_bool 0 (inject_Z z)).
  - apply Qfloor_Z.
  - apply Qceiling_Z.
Qed.

Lemma dec_value_nonneg_exp (d : Decimal) :
  0 <= dexp d -> (dec_value d == inject_Z (dec_signed d * 10 ^ dexp d))%Q.
Proof.
  intros H. unfold dec_value. by rewrite inject_Z_mult, Zpower_Qpower.
Qed.

Lemma dec_value_neg_exp (d : Decimal) :
  dexp d < 0 ->
  (dec_value d == dec_signed d # Z.to_pos (10 ^ (- dexp d)))%Q.
Proof.
  intros H. unfold dec_value.
  assert (HP : 0 < 10 ^ (- dexp d)) by (apply Z.pow_pos_nonneg; lia).
  rewrite Qmake_Qdiv, Z2Pos.id by done.
  rewrite Zpower_Qpower by lia. rewrite Qpower_opp.
  unfold Qdiv. by rewrite Qinv_involutive.
Qed.

(** [int(d)] is the value of [d] truncated toward zero. *)
Lemma dec_to_int_truncate (d : Decimal) :
  dec_to_int d = truncate (dec_value d).
Proof.
  unfold dec_to_int. destruct (Z.leb_spec 0 (dexp d)) as [He|He].
  - rewrite (truncate_comp _ _ (dec_value_nonneg_exp d He)), truncate_Z.
    unfold dec_signed. destruct (dsign d); lia.
  - rewrite (truncate_comp _ _ (dec_value_neg_exp d He)).
    assert (HP : 0 < 10 ^ (- dexp d)) by (apply Z.pow_pos_nonneg; lia).
    set (P := 10 ^ (- dexp d)) in *. clearbody P.
    unfold truncate, Qle_bool, Qceiling, Qfloor, Qopp, dec_signed. cbn [Qnum Qden].
    rewrite Z2Pos.id by done.
    destruct (dsign d).
    + destruct (N.eq_dec (dint d) 0%N) as [->|Hc].
      * simpl. by rewrite Zdiv_0_l.
      * destruct (Z.leb_spec (0 * P) (- Z.of_N (dint d) * 1)); [nia|].
        rewrite Z.opp_involutive. lia.
    + destruct (Z.leb_spec (0 * P) (Z.of_N (dint d) * 1)); [lia|nia].
Qed.

(** [truncate] keeps the sign, never grows the magnitude and removes less
    than one unit: it rounds toward zero. *)
Lemma truncate_toward_zero (q : Q) :
  (Qabs (inject_Z (truncate q)) <= Qabs q)%Q /\
  (Qabs (q - inject_Z (truncate q)) < 1)%Q /\
  (0 <= inject_Z (truncate q) * q)%Q.
Proof.
  unfold truncate. destruct (Qle_bool 0 q) eqn:Hq.
  - apply Qle_bool_iff in Hq.
    pose proof (Qfloor_le q) as Hlo. pose proof (Qlt_floor q) as Hhi.
    assert (H0 : (0 <= inject_Z (Qfloor q))%Q).
    { change 0%Q with (inject_Z 0). rewrite <- Zle_Qle.
      rewrite <- (Qfloor_Z 0). by apply Qfloor_resp_le. }
    rewrite inject_Z_plus in Hhi. change (inject_Z 1) with 1%Q in Hhi.
    rewrite !Qabs_pos by lra. split; [lra|]. split; [lra|]. nra.
  - assert (Hneg : (q < 0)%Q).
    { apply Qnot_le_lt. intros H. apply Qle_bool_iff in H. congruence. }
    pose proof (Qle_ceiling q) as Hhi. pose proof (Qceiling_lt q) as Hlo.
    assert (H0 : (inject_Z (Qceiling q) <= 0)%Q).
    { change 0%Q with (inject_Z 0). rewrite <- Zle_Qle.
      rewrite <- (Qceiling_Z 0). apply Qceiling_resp_le.
      change (inject_Z 0) with 0%Q. lra. }
    unfold Z.sub in Hlo. rewrite inject_Z_plus in Hlo.
    change (inject_Z (- (1))) with (- (1))%Q in Hlo.
    rewrite (Qabs_neg (inject_Z _)), (Qabs_neg q), (Qabs_neg (q - _)) by lra.
    split; [lra|]. split; [lra|]. nra.
Qed.

End DecimalFacts.

(** ** Lists, operations and the manager *)

Section ManagerFacts.

Lemma list_pop_snoc {A} (l : list A) (x : A) : list_pop (l ++ [x]) = Some (l, x).
Proof. induction l as [|y l IH]; simpl; [done|]. by rewrite IH. Qed.

Lemma list_pop_Some {A} (l r : list A) (y : A) :
  list_pop l = Some (r, y) -> l = r ++ [y].
Proof.
  revert r. induction l as [|x l IH]; intros r; simpl; [done|].
  destruct (list_pop l) as [[r' y']|] eqn:Hp.
  - intros [= <- <-]. by rewrite (IH r' eq_refl).
  - intros [= <- <-]. by destruct l; [|simpl in Hp; destruct (list_pop l) as [[??]|]].
Qed.

Lemma list_pop_None {A} (l : list A) : list_pop l = None <-> l = [].
Proof.
  split; [|by intros ->].
  destruct l as [|x l]; [done|]. simpl. by destruct (list_pop l) as [[??]|].
Qed.

(** [undo] after [execute], through the instance as [execute] left it,
    gives the item back. *)
Lemma undo_execute (op : InventoryOperation) (it : InventoryItem) (a : Decimal) :
  undo (execute op it a).1 (execute op it a).2 a = Some it.
Proof.
  destruct op, it; simpl; unfold set_amount, set_location, set_price; simpl;
    do 2 f_equal; lia.
Qed.


Lemma denied_execute u op it a : denied u (execute op it a).1 = denied u op.
Proof. by destruct op. Qed.

Lemma keeps_state_execute op it a :
  keeps_state (execute op it a).1 = keeps_state op.
Proof. by destruct op. Qed.

Lemma field_execute op it a it' : op_field (execute op it a).1 it' = op_field op it'.
Proof. by destruct op. Qed.

Lemma saved_execute op it a :
  keeps_state op = true -> saved (execute op it a).1 = op_field op it.
Proof. by destruct op. Qed.


(** [undo] through an instance that has saved a value writes that value. *)
Lemma undo_writes_saved op it a :
  keeps_state op = true -> is_Some (saved op) ->
  exists it', undo op it a = Some it' /\ op_field op it' = saved op.
Proof.
  destruct op as [| |t [l|]|[p|]]; simpl; try done; intros _ [v Hv]; try done;
    eexists; (split; [reflexivity|done]).
Qed.

Lemma perform_operation_denied u o i a w op it :
  ops w !! o = Some op -> items w !! i = Some it -> denied u op = true ->
  perform_operation u o i a w =
  Some {| items := items w; ops := ops w; manager := manager w;
          stdout := stdout w ++ [denial_message] |}.
Proof. intros Ho Hi Hd. unfold perform_operation. rewrite Ho, Hi. simpl. by rewrite Hd. Qed.

Lemma perform_operation_executed u o i a w op it :
  ops w !! o = Some op -> items w !! i = Some it -> denied u op = false ->
  perform_operation u o i a w =
  Some {| items := <[i := (execute op it a).2]> (items w);
          ops := <[o := (execute op it a).1]> (ops w);
          manager := {| history := history (manager w) ++ [(o, i, a)] |};
          stdout := stdout w |}.
Proof.
  intros Ho Hi Hd. unfold perform_operation. rewrite Ho, Hi. simpl. rewrite Hd.
  by destruct (execute op it a).
Qed.

Lemma perform_operation_inv u o i a w w' :
  perform_operation u o i a w = Some w' ->
  exists op it, ops w !! o = Some op /\ items w !! i = Some it.
Proof.
  unfold perform_operation. intros H.
  destruct (ops w !! o) as [op|]; [|done].
  destruct (items w !! i) as [it|]; [|done]. eauto.
Qed.


Lemma undo_last_operation_entry w rest o i a op it it' :
  list_pop (history (manager w)) = Some (rest, (o, i, a)) ->
  ops w !! o = Some op -> items w !! i = Some it -> undo op it a = Some it' ->
  undo_last_operation w =
  Some {| items := <[i := it']> (items w); ops := ops w;
          manager := {| history := rest |}; stdout := stdout w |}.
Proof.
  intros Hp Ho Hi Hu. unfold undo_last_operation. rewrite Hp, Ho. simpl.
  rewrite Hi. simpl. by rewrite Hu.
Qed.

(** Undoing an operation that was just performed gives back the items and
    the history as they were before it. *)
Lemma undo_last_after_perform u o i a w w' op :
  ops w !! o = Some op -> denied u op = false ->
  perform_operation u o i a w = Some w' ->
  undo_last_operation w' =
  Some {| items := items w; ops := ops w'; manager := manager w; stdout := stdout w |}.
Proof.
  intros Ho Hd Hp.
  destruct (perform_operation_inv _ _ _ _ _ _ Hp) as (op0 & it & Ho0 & Hi).
  assert (op0 = op) as -> by congruence.
  rewrite (perform_operation_executed _ _ _ _ _ _ _ Ho Hi Hd) in Hp.
  injection Hp as <-.
  erewrite undo_last_operation_entry; cycle 1.
  - cbn [manager history]. apply list_pop_snoc.
  - cbn [ops]. apply lookup_insert_eq.
  - cbn [items]. apply lookup_insert_eq.
  - apply undo_execute.
  - cbn [items ops stdout]. rewrite insert_insert_eq, insert_id by done.
    by destruct (manager w).
Qed.

Lemma perform_operation_cases u o i a w w' :
  perform_operation u o i a w = Some w' -> rejected w w' \/ performed o i a w w'.
Proof.
  intros H. destruct (perform_operation_inv _ _ _ _ _ _ H) as (op & it & Ho & Hi).
  destruct (denied u op) eqn:Hd.
  - rewrite (perform_operation_denied _ _ _ _ _ _ _ Ho Hi Hd) in H.
    injection H as <-. by left.
  - rewrite (perform_operation_executed _ _ _ _ _ _ _ Ho Hi Hd) in H.
    injection H as <-. right. by exists op, it.
Qed.

Lemma undo_last_operation_cases (w w' : World) :
  undo_last_operation w = Some w' ->
  (history (manager w) = [] /\ w' = w) \/
  exists rest o i a op it it',
    history (manager w) = rest ++ [(o, i, a)] /\
    ops w !! o = Some op /\ items w !! i = Some it /\ undo op it a = Some it' /\
    w' = {| items := <[i := it']> (items w); ops := ops w;
            manager := {| history := rest |}; stdout := stdout w |}.
Proof.
  unfold undo_last_operation.
  destruct (list_pop (history (manager w))) as [[rest [[o i] a]]|] eqn:Hp.
  - apply list_pop_Some in Hp. intros H. right.
    destruct (ops w !! o) as [op|] eqn:Ho; [|done]. simpl in H.
    destruct (items w !! i) as [it|] eqn:Hi; [|done]. simpl in H.
    destruct (undo op it a) as [it'|] eqn:Hu; [|done]. simpl in H.
    injection H as <-. by exists rest, o, i, a, op, it, it'.
  - apply list_pop_None in Hp. intros [= <-]. by left.
Qed.

Lemma undo_last_operation_ops (w w' : World) :
  undo_last_operation w = Some w' -> ops w' = ops w.
Proof.
  intros H. destruct (undo_last_operation_cases _ _ H)
    as [[_ ->]|(rest & o & i & a & op & it & it' & _ & _ & _ & _ & ->)]; done.
Qed.

Lemma run_app (cs1 cs2 : list Call) : forall w,
  run (cs1 ++ cs2) w = w1 ← run cs1 w; run cs2 w1.
Proof.
  induction cs1 as [|c cs1 IH]; intros w; simpl; [done|].
  destruct (call c w) as [w1|]; simpl; [apply IH|done].
Qed.

Lemma call_ops_lookup (o : addr) (c : Call) (w w' : World) :
  executes o c = false -> call c w = Some w' -> ops w' !! o = ops w !! o.
Proof.
  destruct c as [u o' i a|]; simpl.
  - intros Hne%bool_decide_eq_false Hc.
    destruct (perform_operation_cases _ _ _ _ _ _ Hc)
      as [(_ & -> & _)|(op & it & _ & _ & _ & -> & _)]; [done|].
    by rewrite lookup_insert_ne.
  - intros _ Hc. by rewrite (undo_last_operation_ops _ _ Hc).
Qed.

Lemma run_ops_lookup (o : addr) (cs : list Call) : forall w w',
  Forall (fun c => executes o c = false) cs -> run cs w = Some w' ->
  ops w' !! o = ops w !! o.
Proof.
  induction cs as [|c cs IH]; intros w w' Hcs; simpl.
  - by intros [= <-].
  - inversion Hcs as [|? ? Hc Hcs']; subst.
    destruct (call c w) as [w1|] eqn:Hw1; [|done]. simpl. intros Hrun.
    rewrite (IH _ _ Hcs' Hrun). by eapply call_ops_lookup.
Qed.

End ManagerFacts.

(** ** Runs are defined *)

Section Totality.






End Totality.

(** ** Sets of locations closed under calls *)

Section Closure.

Context (V : gset string).




End Closure.

(** ** The demonstration script *)

Section Script.

(** The states the script prints: 15 after the addition, 12 after the
    removal, "Another Storage" after the transfer, 1649.99 after the
    admin's adjustment, no change and one printed line after the staff
    user's, then 1599.99 and "Main Storage" again after the two undos. *)
Example demo_script_trace :
  (fun w => (items w !! 0%nat, history (manager w), stdout w)) <$>
    run demo_calls demo_world
  = Some (Some {| name := "Iphone"; amount := 12; price := dec_lit 164999 (-2);
                  location := "Another Storage" |},
          [(0%nat, 0%nat, dec_lit 5 0); (1%nat, 0%nat, dec_lit 3 0);
           (2%nat, 0%nat, dec_lit 0 0); (3%nat, 0%nat, dec_lit 5000 (-2))],
          [denial_message]) /\
  (fun w => (items w !! 0%nat, length (history (manager w)))) <$>
    run (demo_calls ++ [UndoLast]) demo_world
  = Some (Some {| name := "Iphone"; amount := 12; price := dec_lit 159999 (-2);
                  location := "Another Storage" |}, 3%nat) /\
  (fun w => (items w !! 0%nat, length (history (manager w)))) <$>
    run (demo_calls ++ [UndoLast; UndoLast]) demo_world
  = Some (Some {| name := "Iphone"; amount := 12; price := dec_lit 159999 (-2);
                  location := "Main Storage" |}, 2%nat).
Proof. repeat split; by_evaluation. Qed.

End Script.

(** ** Undo of the last operation *)

Section UndoLast.

(** C1. After any run of calls, let an N-th operation be performed
    successfully and [undo_last_operation] be called once.  The undo removes
    exactly the entry that the N-th call appended, calls [undo] on the
    recorded operation instance with the recorded item and the recorded
    amount, and leaves every item and the history as they were immediately
    before the N-th operation.  (It holds for every instance, fresh or
    not: the N-th [execute] is the last one to have saved into it.) *)
Theorem undo_last_restores_previous_state
  (w0 : World) (cs : list Call) (u : User) (o i : addr) (a : Decimal)
  (op : InventoryOperation) (wpre wpost : World) :
  run cs w0 = Some wpre ->
  ops wpre !! o = Some op -> denied u op = false ->
  perform_operation u o i a wpre = Some wpost ->
  exists op' it' it w',
    list_pop (history (manager wpost)) = Some (history (manager wpre), (o, i, a)) /\
    ops wpost !! o = Some op' /\ items wpost !! i = Some it' /\
    undo op' it' a = Some it /\
    undo_last_operation wpost = Some w' /\
    run (cs ++ [Perform u o i a; UndoLast]) w0 = Some w' /\
    items w' = <[i := it]> (items wpost) /\
    items wpre !! i = Some it /\
    items w' = items wpre /\
    manager w' = manager wpre.
Proof.
  intros Hrun Ho Hd Hp.
  pose proof (undo_last_after_perform _ _ _ _ _ _ _ Ho Hd Hp) as Hu.
  destruct (perform_operation_inv _ _ _ _ _ _ Hp) as (op0 & it & Ho0 & Hi).
  assert (op0 = op) as -> by congruence.
  rewrite (perform_operation_executed _ _ _ _ _ _ _ Ho Hi Hd) in Hp.
  injection Hp as <-. cbn [items ops manager history stdout] in *.
  exists (execute op it a).1, (execute op it a).2, it. eexists.
  split; [apply list_pop_snoc|].
  split; [apply lookup_insert_eq|].
  split; [apply lookup_insert_eq|].
  split; [apply undo_execute|].
  split; [exact Hu|].
  split.
  { rewrite run_app, Hrun. simpl.
    rewrite (perform_operation_executed _ _ _ _ _ _ _ Ho Hi Hd). simpl.
    by rewrite Hu. }
  cbn [items manager].
  rewrite insert_insert_eq, insert_id by done. done.
Qed.

(** The script's admin price adjustment, the fourth operation, and its undo. *)
Lemma undo_last_restores_demo :
  exists wpre wpost w',
    run (take 3 demo_calls) demo_world = Some wpre /\
    perform_operation admin_user 3%nat 0%nat (dec_lit 5000 (-2)) wpre = Some wpost /\
    undo_last_operation wpost = Some w' /\
    items w' = items wpre /\ manager w' = manager wpre.
Proof.
  eexists _, _.
  edestruct (undo_last_restores_previous_state demo_world (take 3 demo_calls)
               admin_user 3%nat 0%nat (dec_lit 5000 (-2)) AdjustPrice_init)
    as (op' & it' & it & w' & _ & _ & _ & _ & Hu & _ & _ & _ & Hi & Hm).
  - by_evaluation.
  - by_evaluation.
  - by_evaluation.
  - by_evaluation.
  - exists w'. split; [reflexivity|]. split; [reflexivity|]. split; [exact Hu|].
    split; [exact Hi|exact Hm].
Defined.

End UndoLast.

(** ** Round trips of the four operations *)

Section RoundTrip.

(** C2. On a fresh instance of each of the four operations, [execute]
    followed by [undo] with the same amount gives back the item as it was:
    the quantity for [AddItem] and [RemoveItem], which add and subtract the
    same [int(amount)], the location for [TransferItem], the price for
    [AdjustPrice]. *)
Theorem execute_undo_round_trip (it : InventoryItem) (a : Decimal) :
  (amount (execute AddItem it a).2 = amount it + dec_to_int a /\
   undo (execute AddItem it a).1 (execute AddItem it a).2 a = Some it) /\
  (amount (execute RemoveItem it a).2 = amount it - dec_to_int a /\
   undo (execute RemoveItem it a).1 (execute RemoveItem it a).2 a = Some it) /\
  (forall target : string,
     location (execute (TransferItem_init target) it a).2 = target /\
     undo (execute (TransferItem_init target) it a).1
          (execute (TransferItem_init target) it a).2 a = Some it) /\
  (price (execute AdjustPrice_init it a).2 = dec_add (price it) a /\
   undo (execute AdjustPrice_init it a).1 (execute AdjustPrice_init it a).2 a = Some it).
Proof.
  repeat split; try reflexivity; try apply undo_execute.
Qed.

End RoundTrip.

(** ** Authorization *)

Section Authorization.



End Authorization.

(** ** Undo with an empty history *)

Section EmptyHistory.

(** C4, as amended.  With an empty history [undo_last_operation] changes
    nothing at all: no item, no operation instance, not the history, and
    nothing is printed; no error is raised. *)
Theorem undo_last_empty_history_silent (w : World) :
  history (manager w) = [] -> undo_last_operation w = Some w.
Proof. intros H. unfold undo_last_operation. by rewrite H. Qed.

Lemma undo_last_empty_history_demo :
  history (manager demo_world) = [] /\ undo_last_operation demo_world = Some demo_world.
Proof.
  split; [reflexivity|]. apply (undo_last_empty_history_silent demo_world). reflexivity.
Defined.

(** C4 as stated fails: on the fresh manager of the script the call prints
    nothing, so no "nothing to undo" reaches the caller. *)
Lemma undo_last_empty_history_not_reported :
  exists w', undo_last_operation demo_world = Some w' /\ ~ reported demo_world w'.
Proof. exists demo_world. split; [reflexivity|]. by intros H. Qed.

End EmptyHistory.

(** ** Truncated quantities, untruncated prices *)

Section Amounts.

(** What the context makes of a Decimal sum that returns: the exact sum
    rounded half to even, the only Decimal that is; its value is the sum of
    the operands' values whenever the context can hold the exact sum. *)
Lemma Decimal_add_rounds (x a p' : Decimal) :
  Decimal_add x a = Some p' ->
  rounded_half_even (dec_exact_add x a) p' /\
  (forall r, rounded_half_even (dec_exact_add x a) r -> r = p') /\
  (dec_value (dec_exact_add x a) == dec_value x + dec_value a)%Q /\
  (exact_in_context (dec_exact_add x a) ->
   (dec_value p' == dec_value x + dec_value a)%Q).
Proof.
  intros ->%Decimal_add_Some.
  split; [apply dec_round_half_even|].
  split.
  { intros r Hr. apply (rounded_half_even_unique _ _ _ Hr), dec_round_half_even. }
  split; [apply dec_value_exact_add|].
  apply dec_value_add_exact.
Qed.

(** C5, as amended.  [AddItem] and [RemoveItem] change the quantity by the
    amount truncated toward zero, in [execute] and in [undo] alike; 5.7
    added to a quantity of 10 gives 15, and the undo gives 10 again.
    [AdjustPrice] does not truncate the amount: where the Decimal addition
    returns, the new price is the exact sum of price and amount rounded half
    to even by the context, and it is that exact sum whenever the sum has at
    most 28 digits and an exponent of at least [Etiny]; 5.7 added to 100.00
    gives 105.70. *)
Theorem quantity_truncates_price_does_not :
  (forall q : Q,
     (Qabs (inject_Z (truncate q)) <= Qabs q)%Q /\
     (Qabs (q - inject_Z (truncate q)) < 1)%Q /\
     (0 <= inject_Z (truncate q) * q)%Q) /\
  (forall (it : InventoryItem) (a : Decimal),
     execute AddItem it a =
       (AddItem, set_amount (amount it + truncate (dec_value a)) it) /\
     undo AddItem it a = Some (set_amount (amount it - truncate (dec_value a)) it) /\
     execute RemoveItem it a =
       (RemoveItem, set_amount (amount it - truncate (dec_value a)) it) /\
     undo RemoveItem it a = Some (set_amount (amount it + truncate (dec_value a)) it)) /\
  (amount (execute AddItem widget (dec_lit 57 (-1))).2 = 15 /\
   undo AddItem (execute AddItem widget (dec_lit 57 (-1))).2 (dec_lit 57 (-1))
     = Some widget /\
   amount widget = 10) /\
  (forall (it : InventoryItem) (a : Decimal) (old : option Decimal) (p' : Decimal),
     Decimal_add (price it) a = Some p' ->
     price (execute (AdjustPrice old) it a).2 = p' /\
     rounded_half_even (dec_exact_add (price it) a) p' /\
     (forall r, rounded_half_even (dec_exact_add (price it) a) r -> r = p') /\
     (dec_value (dec_exact_add (price it) a) == dec_value (price it) + dec_value a)%Q /\
     (exact_in_context (dec_exact_add (price it) a) ->
      (dec_value p' == dec_value (price it) + dec_value a)%Q)) /\
  (Decimal_add (price widget) (dec_lit 57 (-1)) = Some (dec_lit 10570 (-2)) /\
   price (execute AdjustPrice_init widget (dec_lit 57 (-1))).2 = dec_lit 10570 (-2)).
Proof.
  split; [exact truncate_toward_zero|].
  split.
  { intros it a. simpl. by rewrite <- !dec_to_int_truncate. }
  split; [by vm_compute|].
  split; [|by vm_compute].
  intros it a old p' Hadd. split; [|by apply Decimal_add_rounds].
  symmetry. by apply Decimal_add_Some.
Qed.

(** The specification's 5.7: the quantity of the widget grows by 5, its
    price of 100.00 by exactly 5.7. *)
Lemma quantity_truncates_price_demo :
  truncate (dec_value (dec_lit 57 (-1))) = 5 /\
  amount (execute AddItem widget (dec_lit 57 (-1))).2 = amount widget + 5 /\
  Decimal_add (price widget) (dec_lit 57 (-1)) = Some (dec_lit 10570 (-2)) /\
  price (execute AdjustPrice_init widget (dec_lit 57 (-1))).2 = dec_lit 10570 (-2) /\
  (dec_value (dec_lit 10570 (-2)) == dec_value (price widget) + dec_value (dec_lit 57 (-1)))%Q.
Proof.
  destruct quantity_truncates_price_does_not as (_ & Hq & _ & Hp & _).
  destruct (Hq widget (dec_lit 57 (-1))) as (Hadd & _).
  destruct (Hp widget (dec_lit 57 (-1)) None (dec_lit 10570 (-2))) as (Hprice & _ & _ & _ & Hexact);
    [by_evaluation|].
  split; [by_evaluation|].
  split; [rewrite Hadd; by_evaluation|].
  split; [by_evaluation|].
  split; [exact Hprice|].
  apply Hexact. split; by vm_compute.
Defined.

(** C5 as stated fails: a price of 28 digits has no room for a fraction.
    0.3 added to it leaves the price as it was, and 5.7 raises it by 6. *)
Lemma adjust_price_loses_fraction :
  (Decimal_add (price bullion) (dec_lit 3 (-1)) = Some (price bullion) /\
   price (execute AdjustPrice_init bullion (dec_lit 3 (-1))).2 = price bullion /\
   ~ (dec_value (price bullion) ==
      dec_value (price bullion) + dec_value (dec_lit 3 (-1)))%Q) /\
  (Decimal_add (price bullion) (dec_lit 57 (-1))
     = Some (dec_lit 1234567890123456789012345684 0) /\
   price (execute AdjustPrice_init bullion (dec_lit 57 (-1))).2
     = dec_lit 1234567890123456789012345684 0 /\
   (dec_value (dec_lit 1234567890123456789012345684 0) ==
    dec_value (price bullion) + 6)%Q /\
   ~ (dec_value (dec_lit 1234567890123456789012345684 0) ==
      dec_value (price bullion) + dec_value (dec_lit 57 (-1)))%Q).
Proof.
  split.
  - split; [by_evaluation|]. split; [by_evaluation|]. vm_compute. discriminate.
  - split; [by_evaluation|]. split; [by_evaluation|].
    split; [by_evaluation|]. vm_compute. discriminate.
Qed.

(** C6, as amended.  An [AdjustPrice] performed by a user whose role is
    "admin" first saves the item's price in the instance and then sets the
    price to the Decimal sum of price and amount.  Where that addition
    returns, the sum is the exact sum rounded half to even by the context,
    and it is the exact sum whenever that has at most 28 digits and an
    exponent of at least [Etiny].  The undo that follows sets the price back
    to the saved one, whatever the sum was. *)
Theorem admin_adjust_price
  (u : User) (o i : addr) (a : Decimal) (w : World)
  (old : option Decimal) (it : InventoryItem) (p' : Decimal) :
  role u = "admin"%string ->
  ops w !! o = Some (AdjustPrice old) -> items w !! i = Some it ->
  Decimal_add (price it) a = Some p' ->
  exists w' it' w'',
    perform_operation u o i a w = Some w' /\
    ops w' !! o = Some (AdjustPrice (Some (price it))) /\
    items w' !! i = Some it' /\
    price it' = p' /\
    rounded_half_even (dec_exact_add (price it) a) p' /\
    (forall r, rounded_half_even (dec_exact_add (price it) a) r -> r = p') /\
    (dec_value (dec_exact_add (price it) a) == dec_value (price it) + dec_value a)%Q /\
    (exact_in_context (dec_exact_add (price it) a) ->
     (dec_value (price it') == dec_value (price it) + dec_value a)%Q) /\
    undo_last_operation w' = Some w'' /\
    items w'' !! i = Some it /\ items w'' = items w.
Proof.
  intros Hr Ho Hi Hadd.
  assert (Hd : denied u (AdjustPrice old) = false).
  { unfold denied. rewrite Hr. reflexivity. }
  pose proof (perform_operation_executed u o i a w _ _ Ho Hi Hd) as Hp.
  pose proof (undo_last_after_perform _ _ _ _ _ _ _ Ho Hd Hp) as Hu.
  destruct (Decimal_add_rounds _ _ _ Hadd) as (Hround & Huniq & Hsum & Hexact).
  eexists _, _, _. split; [exact Hp|]. cbn [items ops] in *.
  split; [apply lookup_insert_eq|].
  split; [apply lookup_insert_eq|].
  split; [symmetry; by apply Decimal_add_Some|].
  split; [exact Hround|].
  split; [exact Huniq|].
  split; [exact Hsum|].
  split.
  { intros Hfit. cbn [execute snd price set_price].
    rewrite <- (Decimal_add_Some _ _ _ Hadd). by apply Hexact. }
  split; [exact Hu|]. done.
Qed.

(** The script's admin adjustment of 1599.99 by 50.00. *)
Lemma admin_adjust_price_demo :
  exists w' it' w'',
    perform_operation admin_user 3%nat 0%nat (dec_lit 5000 (-2)) demo_world = Some w' /\
    items w' !! 0%nat = Some it' /\
    price it' = dec_lit 164999 (-2) /\
    (dec_value (price it') == dec_value (price demo_item) + dec_value (dec_lit 5000 (-2)))%Q /\
    undo_last_operation w' = Some w'' /\
    items w'' !! 0%nat = Some demo_item.
Proof.
  destruct (admin_adjust_price admin_user 3%nat 0%nat (dec_lit 5000 (-2)) demo_world
              None demo_item (dec_lit 164999 (-2)))
    as (w' & it' & w'' & Hp & _ & Hi & Hprice & _ & _ & _ & Hexact & Hu & Hi' & _).
  - reflexivity.
  - reflexivity.
  - reflexivity.
  - by_evaluation.
  - exists w', it', w''. split; [exact Hp|]. split; [exact Hi|].
    split; [exact Hprice|].
    split; [apply Hexact; split; by vm_compute|].
    split; [exact Hu|exact Hi'].
Defined.

(** C6 as stated fails: 1 added to a price of 1E+28 needs 29 digits; the
    sum is rounded to 28 and the price keeps its value. *)
Lemma admin_adjust_price_rounds :
  exists w' it',
    perform_operation admin_user 0%nat 0%nat (dec_lit 1 0) ingot_world = Some w' /\
    Decimal_add (price ingot) (dec_lit 1 0) = Some (dec_lit (10 ^ 27) 1) /\
    items w' !! 0%nat = Some it' /\
    price it' = dec_lit (10 ^ 27) 1 /\
    (dec_value (price it') == dec_value (price ingot))%Q /\
    ~ (dec_value (price it') == dec_value (price ingot) + dec_value (dec_lit 1 0))%Q.
Proof.
  eexists _, _. split; [by_evaluation|].
  split; [by_evaluation|].
  split; [by_evaluation|].
  split; [by_evaluation|].
  split; [by_evaluation|].
  vm_compute. discriminate.
Qed.

(** The limits of the context on two sums: below [Etiny] the sum of two
    positive amounts is a zero, and above [Emax] the addition raises. *)
Example decimal_context_limits :
  Decimal_add (dec_lit 1 (-1000030)) (dec_lit 1 (-1000030)) = Some (dec_lit 0 (-1000026)) /\
  dec_add (dec_lit 1 (-1000030)) (dec_lit 1 (-1000030)) = dec_lit 0 (-1000026) /\
  Decimal_add (dec_lit 9 999999) (dec_lit 9 999999) = None.
Proof. by vm_compute. Qed.

End Amounts.

(** ** Effects of a performed operation *)

Section Frame.




End Frame.

(** ** Locations *)

Section Locations.




End Locations.

(** ** An instance performed twice *)

Section Reuse.

(** C9.  Let a [TransferItem] (an [AdjustPrice]) instance be performed a
    second time with no undo in between.  The second [execute] replaces
    the saved location (price) by the value the item of the second call
    had at that call.  From then on, until the instance is performed
    again, the instance holds that value and every [undo] through it
    writes that value: the undo of the second entry, and also the undo of
    the earlier entry, which therefore does not bring back a differing
    value from before the first [execute]. *)
Theorem second_execute_overwrites_saved
  (u1 u2 : User) (o i1 i2 : addr) (a1 a2 : Decimal) (w w1 w2 : World)
  (op : InventoryOperation) (it2 : InventoryItem) :
  ops w !! o = Some op -> keeps_state op = true ->
  denied u1 op = false -> denied u2 op = false ->
  perform_operation u1 o i1 a1 w = Some w1 ->
  items w1 !! i2 = Some it2 ->
  perform_operation u2 o i2 a2 w1 = Some w2 ->
  exists op2 w3 w4 it4,
    ops w2 !! o = Some op2 /\
    saved op2 = op_field op it2 /\
    (forall cs w', Forall (fun c => executes o c = false) cs ->
                   run cs w2 = Some w' -> ops w' !! o = Some op2) /\
    (forall it a, exists it', undo op2 it a = Some it' /\ op_field op it' = saved op2) /\
    undo_last_operation w2 = Some w3 /\
    items w3 !! i2 = Some it2 /\
    undo_last_operation w3 = Some w4 /\
    items w4 !! i1 = Some it4 /\
    op_field op it4 = op_field op it2 /\
    manager w4 = manager w /\
    (forall it0, items w !! i1 = Some it0 ->
                 op_field op it0 <> op_field op it2 -> op_field op it4 <> op_field op it0).
Proof.
  intros Ho Hk Hd1 Hd2 Hp1 Hi2 Hp2.
  destruct (perform_operation_inv _ _ _ _ _ _ Hp1) as (op0 & it1 & Ho0 & Hi1).
  assert (op0 = op) as -> by congruence. clear Ho0.
  pose proof Hp1 as Hp1'.
  rewrite (perform_operation_executed _ _ _ _ _ _ _ Ho Hi1 Hd1) in Hp1'.
  set (op1 := (execute op it1 a1).1) in *.
  set (it1' := (execute op it1 a1).2) in *.
  assert (Ho1 : ops w1 !! o = Some op1).
  { injection Hp1' as <-. apply lookup_insert_eq. }
  assert (Hd2' : denied u2 op1 = false) by (unfold op1; by rewrite denied_execute).
  pose proof Hp2 as Hp2'.
  rewrite (perform_operation_executed _ _ _ _ _ _ _ Ho1 Hi2 Hd2') in Hp2'.
  set (op2 := (execute op1 it2 a2).1) in *.
  assert (Ho2 : ops w2 !! o = Some op2).
  { injection Hp2' as <-. apply lookup_insert_eq. }
  assert (Hk2 : keeps_state op2 = true).
  { unfold op2, op1. by rewrite !keeps_state_execute. }
  assert (Hs2 : saved op2 = op_field op it2).
  { unfold op2. rewrite saved_execute by (unfold op1; by rewrite keeps_state_execute).
    apply field_execute. }
  assert (Hf2 : forall it, op_field op2 it = op_field op it).
  { intros it. unfold op2, op1. by rewrite !field_execute. }
  assert (Hundo : forall it a, exists it', undo op2 it a = Some it' /\ op_field op it' = saved op2).
  { intros it a. destruct (undo_writes_saved op2 it a Hk2) as (it' & Hu & Hf).
    - rewrite Hs2. destruct op; by simpl in *.
    - exists it'. by rewrite <- Hf2. }
  pose proof (undo_last_after_perform _ _ _ _ _ _ _ Ho1 Hd2' Hp2) as Hu3.
  set (w3 := {| items := items w1; ops := ops w2; manager := manager w1;
                stdout := stdout w1 |}) in *.
  assert (Hi1' : items w1 !! i1 = Some it1').
  { injection Hp1' as <-. apply lookup_insert_eq. }
  destruct (Hundo it1' a1) as (it4 & Hu4 & Hf4).
  assert (Hu4' : undo_last_operation w3 =
                 Some {| items := <[i1 := it4]> (items w3); ops := ops w3;
                         manager := {| history := history (manager w) |};
                         stdout := stdout w3 |}).
  { apply undo_last_operation_entry with (o := o) (a := a1) (op := op2) (it := it1');
      try done.
    cbn [w3 manager]. injection Hp1' as <-. cbn [manager history]. apply list_pop_snoc. }
  eexists op2, w3, _, it4.
  split; [exact Ho2|]. split; [exact Hs2|].
  split.
  { intros cs w' Hcs Hrun. by rewrite (run_ops_lookup o cs _ _ Hcs Hrun). }
  split; [exact Hundo|]. split; [exact Hu3|]. split; [exact Hi2|].
  split; [exact Hu4'|]. cbn [items manager].
  split; [apply lookup_insert_eq|].
  split; [by rewrite Hf4|].
  split; [by destruct (manager w)|].
  intros it0 _ Hne. rewrite Hf4, Hs2. congruence.
Qed.

(** The script's transfer instance performed twice on the item: neither
    undo brings the item back to "Main Storage". *)
Lemma second_execute_overwrites_demo :
  exists w1 w2 w3 w4 it3 it4,
    perform_operation staff_user 2%nat 0%nat (dec_lit 0 0) demo_world = Some w1 /\
    perform_operation staff_user 2%nat 0%nat (dec_lit 0 0) w1 = Some w2 /\
    ops w2 !! 2%nat
      = Some (TransferItem "Another Storage" (Some "Another Storage"%string)) /\
    undo_last_operation w2 = Some w3 /\
    items w3 !! 0%nat = Some it3 /\ location it3 = "Another Storage"%string /\
    undo_last_operation w3 = Some w4 /\
    items w4 !! 0%nat = Some it4 /\ location it4 = "Another Storage"%string /\
    history (manager w4) = [] /\
    location demo_item = "Main Storage"%string.
Proof.
  pose (w1 := default demo_world
                (perform_operation staff_user 2%nat 0%nat (dec_lit 0 0) demo_world)).
  pose (w2 := default demo_world
                (perform_operation staff_user 2%nat 0%nat (dec_lit 0 0) w1)).
  destruct (second_execute_overwrites_saved staff_user staff_user 2%nat 0%nat 0%nat
              (dec_lit 0 0) (dec_lit 0 0) demo_world w1 w2
              (TransferItem_init "Another Storage")
              (set_location "Another Storage" demo_item))
    as (op2 & w3 & w4 & it4 & Ho2 & Hs & _ & _ & Hu3 & Hi3 & Hu4 & Hi4 & Hf & Hm & _).
  - reflexivity.
  - reflexivity.
  - reflexivity.
  - reflexivity.
  - by_evaluation.
  - by_evaluation.
  - by_evaluation.
  - exists w1, w2, w3, w4, (set_location "Another Storage" demo_item), it4.
    split; [by_evaluation|]. split; [by_evaluation|].
    split; [by_evaluation|].
    split; [exact Hu3|]. split; [exact Hi3|]. split; [reflexivity|].
    split; [exact Hu4|]. split; [exact Hi4|].
    split; [by injection Hf|].
    split; [by rewrite Hm|reflexivity].
Defined.

End Reuse.

(** ** The user's role *)

Section Role.



End Role.


(** * Further properties of the manager *)

(** ** What no call changes *)

Section Preserved.

Lemma perform_operation_split u o i a w w' :
  perform_operation u o i a w = Some w' ->
  exists op it,
    ops w !! o = Some op /\ items w !! i = Some it /\
    ((denied u op = true /\
      w' = {| items := items w; ops := ops w; manager := manager w;
              stdout := stdout w ++ [denial_message] |}) \/
     (denied u op = false /\
      w' = {| items := <[i := (execute op it a).2]> (items w);
              ops := <[o := (execute op it a).1]> (ops w);
              manager := {| history := history (manager w) ++ [(o, i, a)] |};
              stdout := stdout w |})).
Proof.
  intros H. destruct (perform_operation_inv _ _ _ _ _ _ H) as (op & it & Ho & Hi).
  exists op, it. split; [done|]. split; [done|].
  destruct (denied u op) eqn:Hd.
  - rewrite (perform_operation_denied _ _ _ _ _ _ _ Ho Hi Hd) in H.
    injection H as <-. by left.
  - rewrite (perform_operation_executed _ _ _ _ _ _ _ Ho Hi Hd) in H.
    injection H as <-. by right.
Qed.

Lemma reset_execute op it a : reset (execute op it a).1 = reset op.
Proof. by destruct op. Qed.

Lemma execute_stateless op it a : keeps_state op = false -> (execute op it a).1 = op.
Proof. by destruct op. Qed.

Lemma call_reset (c : Call) (w w' : World) (o : addr) :
  call c w = Some w' -> reset <$> ops w' !! o = reset <$> ops w !! o.
Proof.
  destruct c as [u o' i a|]; simpl; intros Hc.
  - destruct (perform_operation_cases _ _ _ _ _ _ Hc)
      as [(_ & -> & _)|(op & it & Hop & _ & _ & -> & _)]; [done|].
    rewrite lookup_insert. case_decide as Heq; [|done].
    subst o'. rewrite Hop. simpl. by rewrite reset_execute.
  - by rewrite (undo_last_operation_ops _ _ Hc).
Qed.

Lemma executes_stateful_reset (w w' : World) (u : User) (o : addr) :
  reset <$> ops w' !! o = reset <$> ops w !! o ->
  executes_stateful w' u o = executes_stateful w u o.
Proof.
  unfold executes_stateful.
  destruct (ops w' !! o) as [op'|], (ops w !! o) as [op|]; simpl; try done.
  intros [= H]. unfold denied.
  destruct op', op; simpl in *; unfold TransferItem_init, AdjustPrice_init in *;
    congruence.
Qed.

Lemma stateful_uses_call (c : Call) (w w' : World) (cs : list Call) :
  call c w = Some w' -> stateful_uses w' cs = stateful_uses w cs.
Proof.
  intros Hc. induction cs as [|[u o i a|] cs IH]; simpl; [done| |done].
  rewrite (executes_stateful_reset w w' u o) by by eapply call_reset.
  by rewrite IH.
Qed.

(** An instance is left as it is by a run that does not execute it as a
    value-saving instance. *)
Lemma run_ops_stable (o : addr) (cs : list Call) : forall w w',
  run cs w = Some w' -> o ∉ stateful_uses w cs -> ops w' !! o = ops w !! o.
Proof.
  induction cs as [|c cs IH]; intros w w'; simpl.
  - by intros [= <-].
  - destruct (call c w) as [w1|] eqn:Hc; [|done]. simpl. intros Hrun Hnin.
    assert (Hnin1 : o ∉ stateful_uses w1 cs).
    { rewrite (stateful_uses_call c w w1) by done.
      destruct c as [u o' i a|]; [|done].
      destruct (executes_stateful w u o'); set_solver. }
    rewrite (IH _ _ Hrun Hnin1).
    destruct c as [u o' i a|]; simpl in Hc;
      [|by rewrite (undo_last_operation_ops _ _ Hc)].
    destruct (perform_operation_split _ _ _ _ _ _ Hc)
      as (op & it & Hop & Hit & [[Hd ->]|[Hd ->]]); [done|]. cbn [ops].
    rewrite lookup_insert. case_decide as Heq; [|done]. subst o'.
    rewrite Hop. f_equal. apply execute_stateless.
    unfold executes_stateful in Hnin. rewrite Hop, Hd, andb_true_r in Hnin.
    destruct (keeps_state op); [set_solver|done].
Qed.

End Preserved.

(** ** Undoing a whole run *)

Section Unwind.

Lemma run_undos_empty (n : nat) (w : World) :
  history (manager w) = [] -> run (replicate n UndoLast) w = Some w.
Proof.
  intros H. induction n as [|n IH]; simpl; [done|].
  unfold undo_last_operation. rewrite H. simpl. exact IH.
Qed.

Lemma stateful_uses_elem (w : World) (cs : list Call) (o : addr) :
  o ∈ stateful_uses w cs -> exists u, executes_stateful w u o = true.
Proof.
  induction cs as [|[u o' i a|] cs IH]; simpl; [set_solver| |done].
  destruct (executes_stateful w u o') eqn:He; [|done].
  intros [->|H]%elem_of_cons; eauto.
Qed.

Lemma stateful_uses_NoDup_tail (w : World) (c : Call) (cs : list Call) :
  NoDup (stateful_uses w (c :: cs)) -> NoDup (stateful_uses w cs).
Proof.
  destruct c as [u o i a|]; simpl; [|done].
  destruct (executes_stateful w u o); [|done]. by intros [_ ?]%NoDup_cons.
Qed.

(** After a run of [perform_operation] calls in which no value-saving
    instance is executed twice, as many undos as the run recorded entries
    lead back to the items and the history of the start, from any world
    that has the items and the history of the end and the same instances
    at the addresses the run used. *)
Lemma unwind (cs : list Call) : forall w w',
  Forall (fun c => is_perform c = true) cs ->
  NoDup (stateful_uses w cs) ->
  run cs w = Some w' ->
  exists k : nat,
    (k <= length cs)%nat /\
    length (history (manager w')) = (length (history (manager w)) + k)%nat /\
    forall w2,
      items w2 = items w' -> manager w2 = manager w' ->
      (forall u o i a, Perform u o i a ∈ cs -> ops w2 !! o = ops w' !! o) ->
      exists w3,
        run (replicate k UndoLast) w2 = Some w3 /\
        items w3 = items w /\ manager w3 = manager w /\
        ops w3 = ops w2 /\ stdout w3 = stdout w2.
Proof.
  induction cs as [|c cs IH]; intros w w' Hperf Hnd; simpl.
  - intros [= <-]. exists 0%nat. split; [done|]. split; [lia|].
    intros w2 Hi Hm _. exists w2. by rewrite Hi, Hm.
  - destruct (call c w) as [w1|] eqn:Hc; [|done]. simpl. intros Hrun.
    inversion Hperf as [|? ? Hp Hperf']; subst.
    destruct c as [u o i a|]; [clear Hp|done]. simpl in Hc.
    pose proof (stateful_uses_NoDup_tail _ _ _ Hnd) as Hnd'.
    rewrite <- (stateful_uses_call (Perform u o i a) w w1 cs Hc) in Hnd'.
    destruct (IH w1 w' Hperf' Hnd' Hrun) as (k & Hk & Hlen & Hundo).
    destruct (perform_operation_split _ _ _ _ _ _ Hc)
      as (op & it & Hop & Hit & [[Hd Hw1]|[Hd Hw1]]).
    + exists k. split; [lia|]. split; [by rewrite Hlen, Hw1|].
      intros w2 Hi Hm Ho.
      destruct (Hundo w2 Hi Hm) as (w3 & Hr & Hi3 & Hm3 & Ho3 & Hs3).
      { intros u' o' i' a' Hin. eapply Ho. by right. }
      exists w3. by rewrite Hi3, Hm3, Hw1.
    + exists (S k). split; [lia|].
      split; [rewrite Hlen, Hw1; cbn [manager history]; rewrite length_app; simpl; lia|].
      intros w2 Hi Hm Ho.
      destruct (Hundo w2 Hi Hm) as (w3 & Hr & Hi3 & Hm3 & Ho3 & Hs3).
      { intros u' o' i' a' Hin. eapply Ho. by right. }
      assert (Hnin : o ∉ stateful_uses w1 cs).
      { rewrite (stateful_uses_call (Perform u o i a) w w1 cs Hc). simpl in Hnd.
        destruct (executes_stateful w u o) eqn:He.
        - by apply NoDup_cons in Hnd as [? _].
        - intros (u' & Hu')%stateful_uses_elem.
          unfold executes_stateful in He, Hu'. rewrite Hop in He, Hu'.
          rewrite Hd, andb_true_r in He. by rewrite He in Hu'. }
      assert (Hop3 : ops w3 !! o = Some (execute op it a).1).
      { rewrite Ho3, (Ho u o i a) by by left.
        rewrite (run_ops_stable o cs w1 w' Hrun Hnin), Hw1. apply lookup_insert_eq. }
      assert (Hit3 : items w3 !! i = Some (execute op it a).2).
      { rewrite Hi3, Hw1. apply lookup_insert_eq. }
      assert (Hpop : list_pop (history (manager w3))
                     = Some (history (manager w), (o, i, a))).
      { rewrite Hm3, Hw1. apply list_pop_snoc. }
      pose proof (undo_last_operation_entry _ _ _ _ _ _ _ _ Hpop Hop3 Hit3
                    (undo_execute op it a)) as Hu.
      eexists. split.
      { rewrite replicate_S_end, run_app, Hr. simpl. rewrite Hu. reflexivity. }
      cbn [items manager ops stdout]. rewrite Hi3, Hw1. cbn [items].
      rewrite insert_insert_eq, insert_id by done.
      split; [done|]. split; [by destruct (manager w)|]. done.
Qed.

(** X1.  Let a run of [perform_operation] calls execute no [TransferItem]
    or [AdjustPrice] instance more than once.  Then undoing once per
    recorded entry brings every item back to its state before the run and
    the history back to what it was, in reverse order of the calls; from a
    new manager, one undo per call does, the undos left over being no-ops. *)
Theorem undo_all_restores_start (w w' : World) (cs : list Call) :
  Forall (fun c => is_perform c = true) cs ->
  NoDup (stateful_uses w cs) ->
  run cs w = Some w' ->
  exists w3,
    run (replicate (length (history (manager w')) - length (history (manager w))) UndoLast) w'
      = Some w3 /\
    items w3 = items w /\ manager w3 = manager w /\
    ops w3 = ops w' /\ stdout w3 = stdout w' /\
    (history (manager w) = [] ->
     run (cs ++ replicate (length cs) UndoLast) w = Some w3).
Proof.
  intros Hperf Hnd Hrun.
  destruct (unwind cs w w' Hperf Hnd Hrun) as (k & Hk & Hlen & Hundo).
  destruct (Hundo w' eq_refl eq_refl) as (w3 & Hr & Hi & Hm & Ho & Hs); [done|].
  exists w3. replace (_ - _)%nat with k by lia.
  do 5 (split; [done|]).
  intros Hempty. rewrite run_app, Hrun. simpl.
  replace (length cs) with (k + (length cs - k))%nat by lia.
  rewrite replicate_add, run_app, Hr. simpl.
  apply run_undos_empty. by rewrite Hm.
Qed.

(** The script's five calls, one of them denied, and five undos. *)
Lemma undo_all_restores_demo :
  exists w3,
    run (demo_calls ++ replicate 5 UndoLast) demo_world = Some w3 /\
    items w3 = items demo_world /\ manager w3 = manager demo_world.
Proof.
  pose (w' := default demo_world (run demo_calls demo_world)).
  destruct (undo_all_restores_start demo_world w' demo_calls)
    as (w3 & _ & Hi & Hm & _ & _ & Hr).
  - repeat constructor.
  - change (NoDup [2%nat; 3%nat]).
    apply NoDup_cons. split; [by intros [=]%list_elem_of_singleton|].
    apply NoDup_singleton.
  - by_evaluation.
  - exists w3. split; [exact (Hr eq_refl)|]. split; [exact Hi|exact Hm].
Defined.

End Unwind.

(** ** Denied calls and the undo stack *)

Section UndoStack.

Lemma run_denied (ds : list Call) : forall w,
  Forall (denied_call w) ds ->
  run ds w =
  Some {| items := items w; ops := ops w; manager := manager w;
          stdout := stdout w ++ replicate (length ds) denial_message |}.
Proof.
  induction ds as [|c ds IH]; intros w Hds; simpl.
  - rewrite app_nil_r. by destruct w.
  - inversion Hds as [|? ? Hc Hds']; subst.
    destruct c as [u o i a|]; [|done]. simpl in *.
    destruct Hc as [(op & Hop & Hd) [it Hit]].
    rewrite (perform_operation_denied _ _ _ _ _ _ _ Hop Hit Hd). simpl.
    rewrite IH.
    + cbn [items ops manager stdout]. by rewrite <- app_assoc.
    + eapply Forall_impl; [exact Hds'|]. by intros [].
Qed.

(** X2.  Denied calls are not recorded, so they do not stand between an
    operation and its undo: after a performed operation followed by any
    number of denied calls, each of which only prints the denial line,
    [undo_last_operation] undoes that operation. *)
Theorem undo_skips_denied_calls
  (u : User) (o i : addr) (a : Decimal) (op : InventoryOperation)
  (wpre wpost : World) (ds : list Call) :
  ops wpre !! o = Some op -> denied u op = false ->
  perform_operation u o i a wpre = Some wpost ->
  Forall (denied_call wpost) ds ->
  exists w2 w3,
    run ds wpost = Some w2 /\
    items w2 = items wpost /\ ops w2 = ops wpost /\ manager w2 = manager wpost /\
    stdout w2 = stdout wpost ++ replicate (length ds) denial_message /\
    undo_last_operation w2 = Some w3 /\
    items w3 = items wpre /\ manager w3 = manager wpre /\ stdout w3 = stdout w2.
Proof.
  intros Ho Hd Hp Hds.
  destruct (perform_operation_inv _ _ _ _ _ _ Hp) as (op0 & it & Ho0 & Hi).
  assert (op0 = op) as -> by congruence.
  eexists _, _.
  split; [by apply run_denied|]. cbn [items ops manager stdout].
  do 4 (split; [done|]).
  rewrite (perform_operation_executed _ _ _ _ _ _ _ Ho Hi Hd) in Hp.
  injection Hp as <-. cbn [items ops manager stdout history].
  split.
  - eapply undo_last_operation_entry; cbn [items ops manager history].
    + apply list_pop_snoc.
    + apply lookup_insert_eq.
    + apply lookup_insert_eq.
    + apply undo_execute.
  - cbn [items manager stdout]. rewrite insert_insert_eq, insert_id by done.
    split; [done|]. split; [by destruct (manager wpre)|done].
Qed.

(** The script: the staff user's denied adjustment comes after the admin's,
    and the first undo still takes the price back to 1599.99. *)
Lemma undo_skips_denied_demo :
  exists wpre wpost w2 w3 it,
    run (take 3 demo_calls) demo_world = Some wpre /\
    perform_operation admin_user 3%nat 0%nat (dec_lit 5000 (-2)) wpre = Some wpost /\
    run [Perform staff_user 4%nat 0%nat (dec_lit 5000 (-2))] wpost = Some w2 /\
    undo_last_operation w2 = Some w3 /\
    items w3 = items wpre /\
    items w3 !! 0%nat = Some it /\ price it = dec_lit 159999 (-2).
Proof.
  pose (wpre := default demo_world (run (take 3 demo_calls) demo_world)).
  pose (wpost := default demo_world
                   (perform_operation admin_user 3%nat 0%nat (dec_lit 5000 (-2)) wpre)).
  destruct (undo_skips_denied_calls admin_user 3%nat 0%nat (dec_lit 5000 (-2))
              AdjustPrice_init wpre wpost
              [Perform staff_user 4%nat 0%nat (dec_lit 5000 (-2))])
    as (w2 & w3 & Hr & _ & _ & _ & _ & Hu & Hi & _ & _).
  - by_evaluation.
  - by_evaluation.
  - by_evaluation.
  - apply Forall_singleton. split.
    + exists AdjustPrice_init. split; by_evaluation.
    + eexists. by_evaluation.
  - exists wpre, wpost, w2, w3, (set_location "Another Storage" (set_amount 12 demo_item)).
    split; [by_evaluation|]. split; [by_evaluation|]. split; [exact Hr|].
    split; [exact Hu|]. split; [exact Hi|].
    split; [rewrite Hi; by_evaluation|reflexivity].
Defined.

(** X4.  [undo_last_operation] on a non-empty history removes the last
    entry and nothing else from the history, records nothing, prints
    nothing and writes no operation instance; of the items it writes the
    one the entry names, and of that item one field: the quantity for
    [AddItem] and [RemoveItem], the location for [TransferItem], the price
    for [AdjustPrice]. *)
Theorem undo_last_operation_frame
  (w w' : World) (rest : list HistoryEntry) (o i : addr) (a : Decimal) :
  history (manager w) = rest ++ [(o, i, a)] ->
  undo_last_operation w = Some w' ->
  history (manager w') = rest /\ ops w' = ops w /\ stdout w' = stdout w /\
  (forall j, j <> i -> items w' !! j = items w !! j) /\
  exists op it it',
    ops w !! o = Some op /\ items w !! i = Some it /\
    undo op it a = Some it' /\ items w' !! i = Some it' /\
    name it' = name it /\
    match op with
    | AddItem | RemoveItem => price it' = price it /\ location it' = location it
    | TransferItem _ _ => amount it' = amount it /\ price it' = price it
    | AdjustPrice _ => amount it' = amount it /\ location it' = location it
    end.
Proof.
  intros Hh Hu.
  destruct (undo_last_operation_cases _ _ Hu)
    as [[Hnil _]|(rest' & o' & i' & a' & op & it & it' & Hh' & Hop & Hit & Hundo & ->)].
  { rewrite Hnil in Hh. by destruct rest. }
  rewrite Hh in Hh'. apply app_inj_tail in Hh' as [<- [= <- <- <-]].
  cbn [manager history ops stdout items].
  do 3 (split; [done|]).
  split; [intros j Hj; by rewrite lookup_insert_ne|].
  exists op, it, it'. rewrite lookup_insert_eq.
  do 4 (split; [done|]).
  destruct op as [| |t [l|]|[p|]]; simpl in Hundo; try done;
    by injection Hundo as <-.
Qed.

(** The script's first undo: the price goes back, the rest stays. *)
Lemma undo_last_operation_frame_demo :
  exists w w' it it',
    run demo_calls demo_world = Some w /\
    undo_last_operation w = Some w' /\
    length (history (manager w')) = 3%nat /\ ops w' = ops w /\ stdout w' = stdout w /\
    items w !! 0%nat = Some it /\ items w' !! 0%nat = Some it' /\
    amount it' = amount it /\ location it' = location it /\ name it' = name it.
Proof.
  pose (w := default demo_world (run demo_calls demo_world)).
  pose (w' := default demo_world (undo_last_operation w)).
  destruct (undo_last_operation_frame w w'
              [(0%nat, 0%nat, dec_of_int 5); (1%nat, 0%nat, dec_of_int 3);
               (2%nat, 0%nat, dec_of_int 0)]
              3%nat 0%nat (dec_lit 5000 (-2)))
    as (Hh & Ho & Hs & _ & op & it & it' & Hop & Hit & _ & Hit' & Hn & Hf).
  - by_evaluation.
  - by_evaluation.
  - exists w, w', it, it'.
    split; [by_evaluation|]. split; [by_evaluation|].
    split; [by rewrite Hh|]. split; [exact Ho|]. split; [exact Hs|].
    split; [exact Hit|]. split; [exact Hit'|].
    assert (Some op = Some (AdjustPrice (Some (dec_lit 159999 (-2))))) as [= ->]
      by (rewrite <- Hop; by_evaluation).
    destruct Hf as [Ha Hl]. split; [exact Ha|]. split; [exact Hl|exact Hn].
Defined.

End UndoStack.

(** ** Invariants of runs *)

Section RunInvariants.




Lemma call_preserves (c : Call) (w w' : World) :
  call c w = Some w' ->
  dom (items w') = dom (items w) /\ dom (ops w') = dom (ops w) /\
  (forall i it', items w' !! i = Some it' ->
     exists it, items w !! i = Some it /\ name it' = name it) /\
  (exists k : nat, (k <= 1)%nat /\ stdout w' = stdout w ++ replicate k denial_message).
Proof.
  destruct c as [u o i a|]; simpl; intros Hc.
  - destruct (perform_operation_split _ _ _ _ _ _ Hc)
      as (op & it & Hop & Hit & [[Hd ->]|[Hd ->]]); cbn [items ops stdout].
    + do 2 (split; [done|]). split; [eauto|]. by exists 1%nat.
    + split; [apply dom_insert_lookup_L; by eexists|].
      split; [apply dom_insert_lookup_L; by eexists|].
      split.
      * intros j it'. rewrite lookup_insert. case_decide as Heq.
        -- subst j. intros [= <-]. exists it. split; [done|]. by destruct op.
        -- eauto.
      * exists 0%nat. split; [lia|]. by rewrite app_nil_r.
  - destruct (undo_last_operation_cases _ _ Hc)
      as [[_ ->]|(rest & o & i & a & op & it & it' & _ & Hop & Hit & Hu & ->)];
      cbn [items ops stdout].
    + do 2 (split; [done|]). split; [eauto|]. exists 0%nat. split; [lia|]. by rewrite app_nil_r.
    + split; [apply dom_insert_lookup_L; by eexists|]. split; [done|].
      split.
      * intros j it''. rewrite lookup_insert. case_decide as Heq.
        -- subst j. intros [= <-]. exists it. split; [done|].
           destruct op as [| |t [l|]|[p|]]; simpl in Hu; try done;
             by injection Hu as <-.
        -- eauto.
      * exists 0%nat. split; [lia|]. by rewrite app_nil_r.
Qed.

(** X5.  No run of calls creates or removes an object, renames an item,
    or changes the class of an operation instance or the target of a
    transfer; and the only lines a run prints are denial lines, at most
    one per call. *)
Theorem run_preserves_objects (cs : list Call) : forall (w w' : World),
  run cs w = Some w' ->
  dom (items w') = dom (items w) /\ dom (ops w') = dom (ops w) /\
  (forall i it', items w' !! i = Some it' ->
     exists it, items w !! i = Some it /\ name it' = name it) /\
  (forall o, reset <$> ops w' !! o = reset <$> ops w !! o) /\
  (exists k : nat, (k <= length cs)%nat /\
                   stdout w' = stdout w ++ replicate k denial_message).
Proof.
  induction cs as [|c cs IH]; intros w w'; simpl.
  - intros [= <-]. do 2 (split; [done|]). split; [eauto|]. split; [done|].
    exists 0%nat. by rewrite app_nil_r.
  - destruct (call c w) as [w1|] eqn:Hc; [|done]. simpl. intros Hrun.
    destruct (IH _ _ Hrun) as (Hdi & Hdo & Hn & Hr & k & Hk & Hs).
    destruct (call_preserves _ _ _ Hc) as (Hdi1 & Hdo1 & Hn1 & k1 & Hk1 & Hs1).
    split; [congruence|]. split; [congruence|].
    split.
    { intros i it' Hit'. destruct (Hn _ _ Hit') as (it1 & Hit1 & Hn').
      destruct (Hn1 _ _ Hit1) as (it & Hit & Hn''). exists it. split; congruence. }
    split.
    { intros o. rewrite Hr. by eapply call_reset. }
    exists (k1 + k)%nat. split; [lia|].
    by rewrite Hs, Hs1, replicate_add, app_assoc.
Qed.

(** The script: one item named "Iphone" and five instances throughout. *)
Lemma run_preserves_objects_demo :
  exists w' it',
    run (demo_calls ++ [UndoLast; UndoLast]) demo_world = Some w' /\
    dom (items w') = dom (items demo_world) /\
    dom (ops w') = dom (ops demo_world) /\
    items w' !! 0%nat = Some it' /\ name it' = "Iphone"%string.
Proof.
  pose (w' := default demo_world
                (run (demo_calls ++ [UndoLast; UndoLast]) demo_world)).
  destruct (run_preserves_objects (demo_calls ++ [UndoLast; UndoLast]) demo_world w')
    as (Hdi & Hdo & Hn & _ & _).
  - by_evaluation.
  - destruct (Hn 0%nat (set_amount 12 demo_item)) as (it & Hit & Hname);
      [by_evaluation|].
    exists w', (set_amount 12 demo_item).
    split; [by_evaluation|]. split; [exact Hdi|]. split; [exact Hdo|].
    split; [by_evaluation|reflexivity].
Defined.

End RunInvariants.

(** ** Quantities *)

Section Quantities.

Lemma quantity_delta_call (c0 c : Call) (w w1 : World) (i : addr) :
  call c0 w = Some w1 -> quantity_delta w1 i c = quantity_delta w i c.
Proof.
  intros Hc. destruct c as [u o j a|]; simpl; [|done].
  case_bool_decide; [|done].
  pose proof (call_reset c0 w w1 o Hc) as Hr.
  destruct (ops w1 !! o) as [op1|], (ops w !! o) as [op|]; simpl in Hr; try done.
  injection Hr as Hr.
  destruct op1, op; simpl in Hr; unfold TransferItem_init, AdjustPrice_init in Hr;
    congruence.
Qed.

Lemma total_delta_call (c0 : Call) (cs : list Call) (w w1 : World) (i : addr) :
  call c0 w = Some w1 -> total_delta w1 i cs = total_delta w i cs.
Proof.
  intros Hc. induction cs as [|c cs IH]; simpl; [done|].
  by rewrite IH, (quantity_delta_call c0 c w w1 i Hc).
Qed.

Lemma total_delta_Permutation (w : World) (i : addr) (cs cs' : list Call) :
  cs ≡ₚ cs' -> total_delta w i cs = total_delta w i cs'.
Proof. induction 1; simpl; lia. Qed.

Lemma run_quantity (i : addr) (cs : list Call) : forall w w' it,
  Forall (fun c => is_perform c = true) cs ->
  run cs w = Some w' -> items w !! i = Some it ->
  exists it', items w' !! i = Some it' /\ amount it' = amount it + total_delta w i cs.
Proof.
  induction cs as [|c cs IH]; intros w w' it Hperf; simpl.
  - intros [= <-] Hit. exists it. split; [done|lia].
  - destruct (call c w) as [w1|] eqn:Hc; [|done]. simpl. intros Hrun Hit.
    inversion Hperf as [|? ? Hp Hperf']; subst.
    rewrite <- (total_delta_call c cs w w1 i Hc).
    destruct c as [u o j a|]; [clear Hp|done]. simpl in Hc.
    destruct (perform_operation_split _ _ _ _ _ _ Hc)
      as (op & itj & Hop & Hitj & [[Hd Hw1]|[Hd Hw1]]).
    + destruct (IH w1 w' it Hperf' Hrun) as (it' & Hit' & Ha); [by rewrite Hw1|].
      exists it'. split; [done|]. rewrite Ha. simpl. rewrite Hop.
      case_bool_decide; [|lia].
      destruct op; try discriminate Hd; lia.
    + simpl. rewrite Hop. case_bool_decide as Heq.
      * subst j. assert (itj = it) as -> by congruence.
        destruct (IH w1 w' (execute op it a).2 Hperf' Hrun) as (it' & Hit' & Ha).
        { rewrite Hw1. apply lookup_insert_eq. }
        exists it'. split; [done|]. rewrite Ha. destruct op; simpl; lia.
      * destruct (IH w1 w' it Hperf' Hrun) as (it' & Hit' & Ha).
        { rewrite Hw1. cbn [items]. by rewrite lookup_insert_ne. }
        exists it'. split; [done|]. lia.
Qed.

(** X6.  After a run of [perform_operation] calls the quantity of an item
    is its quantity before, plus the truncated amounts of the [AddItem]
    calls on it, minus those of the [RemoveItem] calls on it; transfers,
    price adjustments, denied calls and calls on other items do not count,
    and no bound is checked.  The quantity therefore does not depend on the
    order of the calls. *)
Theorem quantity_after_run
  (i : addr) (cs : list Call) (w w' : World) (it : InventoryItem) :
  Forall (fun c => is_perform c = true) cs ->
  run cs w = Some w' -> items w !! i = Some it ->
  exists it',
    items w' !! i = Some it' /\
    amount it' = amount it + total_delta w i cs /\
    forall cs2 w2,
      cs ≡ₚ cs2 -> run cs2 w = Some w2 ->
      exists it2, items w2 !! i = Some it2 /\ amount it2 = amount it'.
Proof.
  intros Hperf Hrun Hit.
  destruct (run_quantity i cs w w' it Hperf Hrun Hit) as (it' & Hit' & Ha).
  exists it'. do 2 (split; [done|]).
  intros cs2 w2 Hperm Hrun2.
  destruct (run_quantity i cs2 w w2 it) as (it2 & Hit2 & Ha2); [|done|done|].
  { by rewrite <- Hperm. }
  exists it2. split; [done|].
  rewrite Ha, Ha2. f_equal. symmetry. by apply total_delta_Permutation.
Qed.

(** The script's five calls: 10 + 5 - 3. *)
Lemma quantity_after_run_demo :
  exists w' it',
    run demo_calls demo_world = Some w' /\
    items w' !! 0%nat = Some it' /\
    total_delta demo_world 0%nat demo_calls = 2 /\
    amount it' = 12.
Proof.
  pose (w' := default demo_world (run demo_calls demo_world)).
  destruct (quantity_after_run 0%nat demo_calls demo_world w' demo_item)
    as (it' & Hit' & Ha & _).
  - repeat constructor.
  - by_evaluation.
  - reflexivity.
  - exists w', it'. split; [by_evaluation|]. split; [exact Hit'|].
    split; [reflexivity|]. rewrite Ha. reflexivity.
Defined.

Lemma dec_to_int_small (a : Decimal) :
  (Qabs (dec_value a) < 1)%Q -> dec_to_int a = 0.
Proof.
  intros Hlt. rewrite dec_to_int_truncate.
  destruct (truncate_toward_zero (dec_value a)) as (Hle & _ & _).
  set (t := truncate (dec_value a)) in *.
  assert (Ht : (inject_Z (Z.abs t) < inject_Z 1)%Q).
  { change (inject_Z (Z.abs t)) with (Qabs (inject_Z t)).
    eapply Qle_lt_trans; [exact Hle|exact Hlt]. }
  rewrite <- Zlt_Qlt in Ht. lia.
Qed.

(** X7.  An amount of magnitude below one is truncated to zero: an
    [AddItem] or [RemoveItem] with it is performed for every user, leaves
    every item and every instance as they were, and is recorded in the
    history all the same. *)
Theorem stock_move_below_one_is_recorded_noop
  (u : User) (o i : addr) (a : Decimal) (w : World)
  (op : InventoryOperation) (it : InventoryItem) :
  (Qabs (dec_value a) < 1)%Q ->
  op = AddItem \/ op = RemoveItem ->
  ops w !! o = Some op -> items w !! i = Some it ->
  exists w',
    perform_operation u o i a w = Some w' /\
    items w' = items w /\ ops w' = ops w /\ stdout w' = stdout w /\
    history (manager w') = history (manager w) ++ [(o, i, a)].
Proof.
  intros Hsmall Hop Ho Hi.
  assert (Hd : denied u op = false) by (by destruct Hop as [-> | ->]).
  rewrite (perform_operation_executed _ _ _ _ _ _ _ Ho Hi Hd).
  eexists. split; [done|]. cbn [items ops stdout manager history].
  assert (He : execute op it a = (op, it)).
  { destruct Hop as [-> | ->]; simpl; rewrite (dec_to_int_small a Hsmall);
      f_equal; destruct it; unfold set_amount; simpl; f_equal; lia. }
  rewrite He. simpl. by rewrite !insert_id.
Qed.

(** The script's item and an addition of 0.99. *)
Lemma stock_move_below_one_demo :
  exists w',
    perform_operation staff_user 0%nat 0%nat (dec_lit 99 (-2)) demo_world = Some w' /\
    items w' = items demo_world /\
    history (manager w') = [(0%nat, 0%nat, dec_lit 99 (-2))].
Proof.
  destruct (stock_move_below_one_is_recorded_noop staff_user 0%nat 0%nat
              (dec_lit 99 (-2)) demo_world AddItem demo_item)
    as (w' & Hp & Hi & _ & _ & Hh).
  - by_evaluation.
  - by left.
  - reflexivity.
  - reflexivity.
  - exists w'. split; [exact Hp|]. split; [exact Hi|]. by rewrite Hh.
Defined.

(** X8.  An amount whose value is an integer is applied exactly, however
    the Decimal is written (5, 5.00, 0.5E+1): [AddItem] adds that integer
    and [RemoveItem] subtracts it. *)
Theorem integral_amount_applied_exactly
  (a : Decimal) (k : Z) (it : InventoryItem) :
  (dec_value a == inject_Z k)%Q ->
  dec_to_int a = k /\
  amount (execute AddItem it a).2 = amount it + k /\
  amount (execute RemoveItem it a).2 = amount it - k.
Proof.
  intros Hv.
  assert (Hk : dec_to_int a = k).
  { rewrite dec_to_int_truncate, (truncate_comp _ _ Hv). apply truncate_Z. }
  simpl. by rewrite Hk.
Qed.

(** 5.00 and 0.5E+1 both add 5 to the quantity of 10. *)
Lemma integral_amount_demo :
  amount (execute AddItem demo_item (dec_lit 500 (-2))).2 = 15 /\
  amount (execute AddItem demo_item (dec_lit 5 0)).2 = 15 /\
  dec_to_int (dec_lit 5 0) = 5.
Proof.
  destruct (integral_amount_applied_exactly (dec_lit 500 (-2)) 5 demo_item)
    as (_ & Ha & _); [by_evaluation|].
  destruct (integral_amount_applied_exactly (dec_lit 5 0) 5 demo_item)
    as (Hk & Hb & _); [by_evaluation|].
  split; [exact Ha|]. split; [exact Hb|exact Hk].
Defined.

End Quantities.

(** ** Calls on separate objects *)

Section Independence.

(** X9.  Two [perform_operation] calls through different operation
    instances on different items can be swapped: either order gives the
    same items, the same instances and the same printed lines, and records
    the same entries, in the order of the calls. *)
Theorem perform_operation_commutes
  (u1 u2 : User) (o1 o2 i1 i2 : addr) (a1 a2 : Decimal) (w w1 w12 : World) :
  o1 <> o2 -> i1 <> i2 ->
  perform_operation u1 o1 i1 a1 w = Some w1 ->
  perform_operation u2 o2 i2 a2 w1 = Some w12 ->
  exists w2 w21,
    perform_operation u2 o2 i2 a2 w = Some w2 /\
    perform_operation u1 o1 i1 a1 w2 = Some w21 /\
    items w21 = items w12 /\ ops w21 = ops w12 /\ stdout w21 = stdout w12 /\
    history (manager w21) ≡ₚ history (manager w12) /\
    exists e1 e2,
      history (manager w12) = history (manager w) ++ e1 ++ e2 /\
      history (manager w21) = history (manager w) ++ e2 ++ e1 /\
      history (manager w1) = history (manager w) ++ e1 /\
      history (manager w2) = history (manager w) ++ e2.
Proof.
  intros Hno Hni Hp1 Hp2.
  destruct (perform_operation_split _ _ _ _ _ _ Hp1)
    as (op1 & it1 & Hop1 & Hit1 & H1).
  destruct (perform_operation_split _ _ _ _ _ _ Hp2)
    as (op2 & it2 & Hop2' & Hit2' & H2).
  assert (Hop2 : ops w !! o2 = Some op2).
  { destruct H1 as [[_ ->]|[_ ->]]; cbn [ops] in Hop2'; [done|].
    by rewrite lookup_insert_ne in Hop2'. }
  assert (Hit2 : items w !! i2 = Some it2).
  { destruct H1 as [[_ ->]|[_ ->]]; cbn [items] in Hit2'; [done|].
    by rewrite lookup_insert_ne in Hit2'. }
  destruct H1 as [[Hd1 ->]|[Hd1 ->]], H2 as [[Hd2 ->]|[Hd2 ->]];
    cbn [items ops manager stdout history].
  - rewrite (perform_operation_denied _ _ _ _ _ _ _ Hop2 Hit2 Hd2).
    eexists _, _. split; [done|].
    split; [by apply perform_operation_denied with (op := op1) (it := it1)|].
    cbn [items ops manager stdout history]. do 4 (split; [done|]).
    exists [], []. by rewrite !app_nil_r.
  - rewrite (perform_operation_executed _ _ _ _ _ _ _ Hop2 Hit2 Hd2).
    eexists _, _. split; [done|].
    split.
    { apply perform_operation_denied with (op := op1) (it := it1); cbn [items ops];
        [by rewrite lookup_insert_ne|by rewrite lookup_insert_ne|done]. }
    cbn [items ops manager stdout history]. do 4 (split; [done|]).
    exists [], [(o2, i2, a2)]. by rewrite !app_nil_r.
  - rewrite (perform_operation_denied _ _ _ _ _ _ _ Hop2 Hit2 Hd2).
    eexists _, _. split; [done|].
    split; [by apply perform_operation_executed with (op := op1) (it := it1)|].
    cbn [items ops manager stdout history]. do 4 (split; [done|]).
    exists [(o1, i1, a1)], []. by rewrite !app_nil_r.
  - rewrite (perform_operation_executed _ _ _ _ _ _ _ Hop2 Hit2 Hd2).
    eexists _, _. split; [done|].
    split.
    { apply perform_operation_executed with (op := op1) (it := it1); cbn [items ops];
        [by rewrite lookup_insert_ne|by rewrite lookup_insert_ne|done]. }
    cbn [items ops manager stdout history].
    split; [by apply insert_insert_ne|]. split; [by apply insert_insert_ne|].
    split; [done|].
    split.
    { rewrite <- !app_assoc. apply Permutation_app_head. simpl. apply perm_swap. }
    exists [(o1, i1, a1)], [(o2, i2, a2)]. by rewrite <- !app_assoc.
Qed.

(** Two items and two instances: an addition to one item and a transfer
    of the other, in either order. *)
Lemma perform_operation_commutes_demo :
  exists w1 w12 w2 w21,
    perform_operation staff_user 0%nat 0%nat (dec_lit 5 0) two_items_world = Some w1 /\
    perform_operation staff_user 1%nat 1%nat (dec_lit 0 0) w1 = Some w12 /\
    perform_operation staff_user 1%nat 1%nat (dec_lit 0 0) two_items_world = Some w2 /\
    perform_operation staff_user 0%nat 0%nat (dec_lit 5 0) w2 = Some w21 /\
    items w21 = items w12 /\ ops w21 = ops w12.
Proof.
  pose (w1 := default two_items_world
                (perform_operation staff_user 0%nat 0%nat (dec_lit 5 0) two_items_world)).
  pose (w12 := default two_items_world
                 (perform_operation staff_user 1%nat 1%nat (dec_lit 0 0) w1)).
  destruct (perform_operation_commutes staff_user staff_user 0%nat 1%nat 0%nat 1%nat
              (dec_lit 5 0) (dec_lit 0 0) two_items_world w1 w12)
    as (w2 & w21 & Hp2 & Hp21 & Hi & Ho & _).
  - done.
  - done.
  - by_evaluation.
  - by_evaluation.
  - exists w1, w12, w2, w21.
    split; [by_evaluation|]. split; [by_evaluation|].
    split; [exact Hp2|]. split; [exact Hp21|]. split; [exact Hi|exact Ho].
Defined.

End Independence.

(** ** Negative amounts *)

Section NegativeAmounts.

(** X10.  Amounts are not checked for their sign, and truncation is
    toward zero on both sides of it: an [AddItem] with the negated amount
    changes the item exactly as a [RemoveItem] with the amount does, and the
    other way round, fractional amounts included. *)
Theorem negated_amount_swaps_add_and_remove (it : InventoryItem) (a : Decimal) :
  dec_to_int (dec_negate a) = - dec_to_int a /\
  (execute AddItem it (dec_negate a)).2 = (execute RemoveItem it a).2 /\
  (execute RemoveItem it (dec_negate a)).2 = (execute AddItem it a).2 /\
  undo AddItem it (dec_negate a) = undo RemoveItem it a.
Proof.
  assert (Hn : dec_to_int (dec_negate a) = - dec_to_int a).
  { unfold dec_to_int, dec_negate. cbn [dsign dint dexp].
    destruct (dsign a), (0 <=? dexp a); simpl negb; cbv iota; lia. }
  split; [done|]. simpl. rewrite Hn.
  split; [f_equal; lia|]. split; f_equal; [lia|f_equal; lia].
Qed.

End NegativeAmounts.
